(** * ECOv2 stability dashboard: run segmentation, latest-run filter and plot builder

    A shallow embedding of [dashboard.py].  A pandas data frame is a list of
    records read top to bottom; a nullable cell is an [option]; numeric cells
    are exact rationals ([Q]) standing for the float64 values of the program
    (infinities and rounding are outside the model).  Exceptions are values of
    an error type threaded through a small result monad. *)

From Stdlib Require Import List String Ascii ZArith QArith Bool Lia.
From Stdlib Require Import Orders Sorting.Sorted Sorting.Permutation Sorting.Mergesort.
From Stdlib Require Import DecimalString.
Import ListNotations.

Local Open Scope string_scope.
Local Open Scope list_scope.

(* ================================================================== *)
(** ** Exceptions *)
(* ================================================================== *)

Inductive error : Type :=
| ValueError (msg : string)
| KeyError (column : string)
| TypeError (msg : string).

Inductive result (A : Type) : Type :=
| Ok (a : A)
| Raise (e : error).

Arguments Ok {A} a.
Arguments Raise {A} e.

Definition bind {A B : Type} (m : result A) (k : A -> result B) : result B :=
  match m with
  | Ok a => k a
  | Raise e => Raise e
  end.

Notation "x <- m ;; k" := (bind m (fun x => k))
  (at level 61, m at next level, right associativity).


(* ================================================================== *)
(** ** CONFIG *)
(* ================================================================== *)

Definition APP_TITLE : string := "ECOv2 Stability Data Analysis".
Definition DATA_CSV : string := "data.csv".

Inductive Metric : Type := HGO | LGO | LTC | RAW | VMain.

Definition METRICS : list Metric := [HGO; LGO; LTC; RAW; VMain].

Definition metric_name (m : Metric) : string :=
  match m with
  | HGO => "HGO" | LGO => "LGO" | LTC => "LTC" | RAW => "RAW" | VMain => "VMain"
  end.

(** [px.colors.qualitative.Plotly] *)
Definition COLOR_POOL : list string :=
  ["#636EFA"; "#EF553B"; "#00CC96"; "#AB63FA"; "#FFA15A";
   "#19D3F3"; "#FF6692"; "#B6E880"; "#FF97FF"; "#FECB52"].

(* ================================================================== *)
(** ** The raw table, as [pd.read_csv] hands it over *)
(* ================================================================== *)

(** A cell of a column that [pd.to_numeric] is applied to: [Num q] reads as
    the number [q], [Text s] is text that does not read as a number, [Blank]
    is an empty cell. *)
Inductive cell : Type :=
| Num (q : Q)
| Text (s : string)
| Blank.

(** One line of the CSV.  A field is meaningful only when its column is
    listed in [columns] of the frame; the metric columns are numeric with
    [None] for an empty cell. *)
Record RawRecord : Type := {
  raw_SerialNumber : string;          (* the cell as [astype(str)] renders it *)
  raw_Channel : cell;
  raw_SampleCount : cell;
  raw_Date : string;
  raw_Time : string;
  raw_FileMTime : cell;
  raw_metric : Metric -> option Q
}.

Record RawFrame : Type := {
  columns : list string;
  records : list RawRecord
}.

Definition has_column (c : string) (df : RawFrame) : bool :=
  existsb (String.eqb c) (columns df).

(** [df[c]]: a [KeyError] when the column is absent. *)
Definition getitem {A : Type} (c : string) (df : RawFrame)
    (field : RawRecord -> A) : result (list A) :=
  if has_column c df then Ok (map field (records df)) else Raise (KeyError c).

(* ================================================================== *)
(** ** The normalised table *)
(* ================================================================== *)

(** The derived timestamp stays symbolic: the datetime parser is library
    code and no property below reads it. *)
Inductive timestamp : Type :=
| DateTime (date time : string)
| EpochSeconds (c : cell)
| NaT.

Record Sample : Type := {
  SerialNumber : string;
  SerialID : string;
  Channel : option Z;               (* Int64, [None] is <NA> *)
  SampleCount : option Q;           (* float64, [None] is NaN *)
  X : option Q;
  Timestamp : timestamp;
  value : Metric -> option Q
}.

(** A sample together with its [RunIndex] column. *)
Record Row : Type := {
  sample : Sample;
  RunIndex : option Z
}.

Definition Frame : Type := list Row.

(* ------------------------------------------------------------------ *)
(** *** [str.strip] *)

Definition is_space (c : ascii) : bool :=
  let n := nat_of_ascii c in
  ((9 <=? n) && (n <=? 13) || (n =? 32))%nat.

Fixpoint lstrip (s : string) : string :=
  match s with
  | EmptyString => EmptyString
  | String c s' => if is_space c then lstrip s' else s
  end.

Fixpoint rstrip (s : string) : string :=
  match s with
  | EmptyString => EmptyString
  | String c s' =>
      match rstrip s' with
      | EmptyString => if is_space c then EmptyString else String c EmptyString
      | t => String c t
      end
  end.

Definition strip (s : string) : string := rstrip (lstrip s).

(* ------------------------------------------------------------------ *)
(** *** [pd.to_numeric(..., errors="coerce")] and [astype("Int64")] *)

Definition to_numeric_coerce (c : cell) : option Q :=
  match c with
  | Num q => Some q
  | Text _ => None
  | Blank => None
  end.

Definition is_integral (q : Q) : bool := (Qden (Qred q) =? 1)%positive.

Definition int_of (v : option Q) : result (option Z) :=
  match v with
  | None => Ok None
  | Some q =>
      if is_integral q then Ok (Some (Qnum (Qred q)))
      else Raise (TypeError "cannot safely cast non-equivalent float64 to int64")
  end.

(** The cast is checked on the whole column: one fractional value fails it. *)
Fixpoint astype_Int64 (col : list (option Q)) : result (list (option Z)) :=
  match col with
  | [] => Ok []
  | v :: rest =>
      z <- int_of v ;;
      zs <- astype_Int64 rest ;;
      Ok (z :: zs)
  end.

Definition make_timestamp (df : RawFrame) (r : RawRecord) : timestamp :=
  if has_column "Date" df && has_column "Time" df then
    DateTime (raw_Date r) (raw_Time r)
  else if has_column "FileMTime" df then EpochSeconds (raw_FileMTime r)
  else NaT.

Definition make_sample (df : RawFrame) (rc : RawRecord * (option Z * option Q))
    : Sample :=
  let '(r, (ch, sc)) := rc in
  {| SerialNumber := raw_SerialNumber r;
     SerialID := strip (raw_SerialNumber r);
     Channel := ch;
     SampleCount := sc;
     X := sc;
     Timestamp := make_timestamp df r;
     value := raw_metric r |}.

Definition ensure_columns (df : RawFrame) : result (list Sample) :=
  if negb (has_column "SerialNumber" df) then
    Raise (ValueError "Missing SerialNumber column")
  else
    chan_raw <- getitem "Channel" df raw_Channel ;;
    chan <- astype_Int64 (map to_numeric_coerce chan_raw) ;;
    count_raw <- getitem "SampleCount" df raw_SampleCount ;;
    let count := map to_numeric_coerce count_raw in
    Ok (map (make_sample df) (combine (records df) (combine chan count))).

(* ================================================================== *)
(** ** [add_run_index] *)
(* ================================================================== *)

(** Ascending order of [sort_values], missing values last. *)
Definition compare_na_last {A : Type} (cmp : A -> A -> comparison)
    (a b : option A) : comparison :=
  match a, b with
  | Some x, Some y => cmp x y
  | Some _, None => Lt
  | None, Some _ => Gt
  | None, None => Eq
  end.

Definition x_leb (a b : option Q) : bool :=
  match a, b with
  | Some x, Some y => Qle_bool x y
  | _, None => true
  | None, Some _ => false
  end.

(** The key [["SerialID", "Channel", "X"]], compared column by column. *)
Definition sample_leb (a b : Sample) : bool :=
  match String.compare (SerialID a) (SerialID b) with
  | Lt => true
  | Gt => false
  | Eq =>
      match compare_na_last Z.compare (Channel a) (Channel b) with
      | Lt => true
      | Gt => false
      | Eq => x_leb (X a) (X b)
      end
  end.

Lemma sample_leb_total (a b : Sample) :
  sample_leb a b = true \/ sample_leb b a = true.
Proof.
  unfold sample_leb.
  rewrite (String.compare_antisym (SerialID b) (SerialID a)).
  destruct (String.compare (SerialID a) (SerialID b)); simpl; auto.
  destruct (Channel a) as [ca|], (Channel b) as [cb|]; simpl; auto.
  - rewrite (Z.compare_antisym ca cb).
    destruct (ca ?= cb)%Z; simpl; auto.
    destruct (X a) as [xa|], (X b) as [xb|]; simpl; auto.
    destruct (Qle_bool xa xb) eqn:E; auto. right.
    apply Qle_bool_iff. apply Qlt_le_weak. apply Qnot_le_lt.
    intro H. apply Qle_bool_iff in H. congruence.
  - destruct (X a) as [xa|], (X b) as [xb|]; simpl; auto.
    destruct (Qle_bool xa xb) eqn:E; auto. right.
    apply Qle_bool_iff. apply Qlt_le_weak. apply Qnot_le_lt.
    intro H. apply Qle_bool_iff in H. congruence.
Qed.

Module SampleOrder <: TotalLeBool.
Definition t := Sample.
Definition leb := sample_leb.
Definition leb_total := sample_leb_total.
End SampleOrder.

(** [kind="mergesort"]: the merge sort of the standard library.  It returns
    the rows in ascending order of the key; rows whose three key columns are
    equal may come out in another order than a stable sort leaves them, and
    no statement below depends on the order of such rows. *)
Module SampleSort := Sort SampleOrder.

Definition sort_values (df : list Sample) : list Sample := SampleSort.sort df.

(** The group a row belongs to under [groupby(["SerialID", "Channel"])]:
    a row with a missing key belongs to no group (dropna=True). *)
Definition key : Type := (string * Z)%type.

Definition group_key (s : Sample) : option key :=
  match Channel s with
  | Some c => Some (SerialID s, c)
  | None => None
  end.

Definition key_eqb (a b : key) : bool :=
  String.eqb (fst a) (fst b) && Z.eqb (snd a) (snd b).

(** Per-group accumulators, most recent binding first. *)
Fixpoint lookup {V : Type} (k : key) (m : list (key * V)) : option V :=
  match m with
  | [] => None
  | (k', v) :: m' => if key_eqb k k' then Some v else lookup k m'
  end.

Definition qsub (a b : option Q) : option Q :=
  match a, b with
  | Some x, Some y => Some (x - y)
  | _, _ => None
  end.

(** [groupby(...)["X"].diff()]: the difference to the previous row of the
    same group; NaN on the first row of a group and on rows of no group. *)
Fixpoint group_diff (last : list (key * option Q)) (df : list Sample)
    : list (option Q) :=
  match df with
  | [] => []
  | s :: rest =>
      match group_key s with
      | None => None :: group_diff last rest
      | Some k =>
          match lookup k last with
          | None => None
          | Some prev => qsub (X s) prev
          end :: group_diff ((k, X s) :: last) rest
      end
  end.

Definition fillna (d : Q) (v : option Q) : Q :=
  match v with Some q => q | None => d end.

Definition lt (v bound : Q) : bool := negb (Qle_bool bound v).

(** [groupby([SerialID, Channel]).cumsum()] of a boolean column: the number
    of [true] so far in the row's group; missing on rows of no group. *)
Fixpoint group_cumsum (acc : list (key * Z)) (keys : list (option key))
    (flags : list bool) : list (option Z) :=
  match keys, flags with
  | k :: keys', b :: flags' =>
      match k with
      | None => None :: group_cumsum acc keys' flags'
      | Some k =>
          let total := (match lookup k acc with Some n => n | None => 0 end
                        + (if b then 1 else 0))%Z in
          Some total :: group_cumsum ((k, total) :: acc) keys' flags'
      end
  | _, _ => []
  end.

Definition with_run_index (sr : Sample * option Z) : Row :=
  {| sample := fst sr; RunIndex := snd sr |}.

Definition add_run_index (df : list Sample) : Frame :=
  let df := sort_values df in
  let boundary := map (fun d => lt (fillna 1 d) 0) (group_diff [] df) in
  let run := group_cumsum [] (map group_key df) boundary in
  map with_run_index (combine df run).

(* ================================================================== *)
(** ** [keep_latest_run_only] *)
(* ================================================================== *)

Definition row_key (r : Row) : option key := group_key (sample r).

(** The per-group maximum of [RunIndex], missing values skipped. *)
Fixpoint group_max (acc : list (key * Z)) (df : Frame) : list (key * Z) :=
  match df with
  | [] => acc
  | r :: rest =>
      match row_key r, RunIndex r with
      | Some k, Some v =>
          match lookup k acc with
          | Some m => group_max ((k, Z.max m v) :: acc) rest
          | None => group_max ((k, v) :: acc) rest
          end
      | _, _ => group_max acc rest
      end
  end.

(** [groupby(...)["RunIndex"].transform("max")]: the group's maximum on each
    of its rows, missing on rows of no group. *)
Definition transform_max (df : Frame) : list (option Z) :=
  let m := group_max [] df in
  map (fun r => match row_key r with
                | Some k => lookup k m
                | None => None
                end) df.

(** [==] on nullable numbers: a missing operand compares unequal. *)
Definition eq_na (a b : option Z) : bool :=
  match a, b with
  | Some x, Some y => Z.eqb x y
  | _, _ => false
  end.

Definition keep_latest_run_only (df : Frame) : Frame :=
  let latest := transform_max df in
  map fst (filter (fun rl => eq_na (RunIndex (fst rl)) (snd rl))
                  (combine df latest)).

(* ------------------------------------------------------------------ *)
(** *** Small data sets used in the examples *)

Definition no_metrics : Metric -> option Q := fun _ => None.

Definition mk_sample (serial : string) (ch : option Z) (x : option Q) : Sample :=
  {| SerialNumber := serial; SerialID := serial; Channel := ch;
     SampleCount := x; X := x; Timestamp := NaT; value := no_metrics |}.

Definition xs_of (df : Frame) : list (option Q) := map (fun r => X (sample r)) df.
Definition runs_of (df : Frame) : list (option Z) := map RunIndex df.

(* ================================================================== *)
(** ** Series statistics *)
(* ================================================================== *)

Fixpoint dropna (col : list (option Q)) : list Q :=
  match col with
  | [] => []
  | Some q :: rest => q :: dropna rest
  | None :: rest => dropna rest
  end.

Definition qsum (vs : list Q) : Q := fold_right Qplus 0 vs.

Definition qlen (vs : list Q) : Q := inject_Z (Z.of_nat (List.length vs)).

(** [Series.mean()]: missing values are skipped; NaN when nothing is left. *)
Definition mean (col : list (option Q)) : option Q :=
  match dropna col with
  | [] => None
  | vs => Some (Qred (qsum vs / qlen vs))
  end.

(** A standard deviation is kept as the square root of an exact rational. *)
Inductive root : Type := Sqrt (radicand : Q).

(** [Series.std(ddof)]: with [n] values left after skipping the missing
    ones, the root of the squared deviations over [n - ddof]; NaN unless
    [n > ddof]. *)
Definition std (ddof : nat) (col : list (option Q)) : option root :=
  let vs := dropna col in
  match mean col with
  | None => None
  | Some m =>
      if (List.length vs <=? ddof)%nat then None
      else
        let sq := map (fun v => (v - m) * (v - m)) vs in
        Some (Sqrt (Qred (qsum sq / inject_Z (Z.of_nat (List.length vs - ddof)))))
  end.

Definition notna {A : Type} (v : option A) : bool :=
  match v with Some _ => true | None => false end.

Definition qmin (vs : list Q) : option Q :=
  match vs with
  | [] => None
  | v :: rest => Some (fold_left (fun a b => if Qle_bool b a then b else a) rest v)
  end.

Definition qmax (vs : list Q) : option Q :=
  match vs with
  | [] => None
  | v :: rest => Some (fold_left (fun a b => if Qle_bool a b then b else a) rest v)
  end.

(* ================================================================== *)
(** ** Figures *)
(* ================================================================== *)

(** An ordinate of a trace: a float of the table, or mean plus or minus a
    standard deviation. *)
Inductive ordinate : Type :=
| Val (v : option Q)
| Plus (m : option Q) (s : root)
| Minus (m : option Q) (s : root).

Record Trace : Type := {
  t_x : list (option Q);
  t_y : list ordinate;
  t_mode : option string;
  t_name : option string;
  t_color : string;
  t_dash : option string;
  t_width : option Z;
  t_showlegend : bool;
  t_row : nat;
  t_col : nat
}.

Record Figure : Type := {
  subplot_titles : list string;
  traces : list Trace;
  height : option Z
}.

(** [px.line()] without data: a figure with no trace. *)
Definition px_line : Figure :=
  {| subplot_titles := []; traces := []; height := None |}.

Definition make_subplots (titles : list string) : Figure :=
  {| subplot_titles := titles; traces := []; height := None |}.

Definition add_scatter (fig : Figure) (t : Trace) : Figure :=
  {| subplot_titles := subplot_titles fig;
     traces := traces fig ++ [t];
     height := height fig |}.

Definition update_layout (fig : Figure) (h : Z) : Figure :=
  {| subplot_titles := subplot_titles fig;
     traces := traces fig;
     height := Some h |}.

(* ------------------------------------------------------------------ *)
(** *** Python dictionaries and lists of strings *)

Fixpoint dict_set {V : Type} (k : string) (v : V) (d : list (string * V))
    : list (string * V) :=
  match d with
  | [] => [(k, v)]
  | (k', v') :: d' =>
      if String.eqb k k' then (k, v) :: d' else (k', v') :: dict_set k v d'
  end.

Fixpoint dict_get {V : Type} (k : string) (d : list (string * V)) : option V :=
  match d with
  | [] => None
  | (k', v) :: d' => if String.eqb k k' then Some v else dict_get k d'
  end.

Definition contains (s : string) (l : list string) : bool :=
  existsb (String.eqb s) l.

(** [Series.unique()]: first occurrences, in order of appearance. *)
Fixpoint unique_aux (seen : list string) (l : list string) : list string :=
  match l with
  | [] => []
  | s :: rest =>
      if contains s seen then unique_aux seen rest
      else s :: unique_aux (s :: seen) rest
  end.

Definition unique (l : list string) : list string := unique_aux [] l.

Module StringOrder <: TotalLeBool.
Definition t := string.
Definition leb := String.leb.
Definition leb_total := String.leb_total.
End StringOrder.

Module StringSort := Sort StringOrder.

Definition sorted (l : list string) : list string := StringSort.sort l.

Fixpoint enumerate_from {A : Type} (i : nat) (l : list A) : list (nat * A) :=
  match l with
  | [] => []
  | a :: rest => (i, a) :: enumerate_from (S i) rest
  end.

Definition enumerate {A : Type} (l : list A) : list (nat * A) :=
  enumerate_from 0 l.

Definition str_nat (n : nat) : string := NilZero.string_of_uint (Nat.to_uint n).
Definition str_Z (z : Z) : string := NilZero.string_of_int (Z.to_int z).

(* ================================================================== *)
(** ** [update_plot] *)
(* ================================================================== *)

Definition serial_of (r : Row) : string := SerialID (sample r).
Definition x_of (r : Row) : option Q := X (sample r).
Definition metric_of (metric : Metric) (r : Row) : option Q := value (sample r) metric.

(** [df["X"] <= top_n] and [df["X"] > top_n]: both are false on NaN. *)
Definition x_le (top_n : Z) (r : Row) : bool :=
  match x_of r with
  | Some x => Qle_bool x (inject_Z top_n)
  | None => false
  end.

Definition x_gt (top_n : Z) (r : Row) : bool :=
  match x_of r with
  | Some x => negb (Qle_bool x (inject_Z top_n))
  | None => false
  end.

Definition no_data_warning (missing : list string) : string :=
  ("⚠️ No data for: " ++ String.concat ", " missing)%string.

(** The outcome of the device selection: give up, or go on with a list of
    serials, a label and a warning. *)
Inductive selection : Type :=
| NoValid (label warning : string)
| Selected (serials : list string) (label warning : string).

Definition select_serials (all_serials : list string)
    (compare_serials : option (list string)) : selection :=
  match compare_serials with
  | Some (c :: cs) =>
      let compare_serials := c :: cs in
      let valid := filter (fun s => contains s all_serials) compare_serials in
      let missing :=
        filter (fun s => negb (contains s all_serials)) compare_serials in
      match valid with
      | [] => NoValid "No valid serials selected" (no_data_warning missing)
      | _ =>
          let label :=
            ("Comparing " ++ str_nat (List.length valid) ++ " serial(s)")%string in
          match missing with
          | [] => Selected valid label ""
          | _ => Selected valid label (no_data_warning missing)
          end
      end
  | _ => Selected all_serials "All serials (latest run)" ""
  end.

Definition color_map (serials : list string) : list (string * string) :=
  fold_left
    (fun d (it : nat * string) =>
       dict_set (snd it) (nth (fst it mod List.length COLOR_POOL) COLOR_POOL "") d)
    (enumerate serials) [].

Definition color_of (cm : list (string * string)) (s : string) : string :=
  match dict_get s cm with Some c => c | None => "" end.

Definition raw_trace (metric : Metric) (g : Frame) (s col : string)
    (row_idx : nat) : Trace :=
  {| t_x := map x_of g;
     t_y := map (fun r => Val (metric_of metric r)) g;
     t_mode := None;
     t_name := Some s;
     t_color := col;
     t_dash := None;
     t_width := None;
     t_showlegend := (row_idx =? 1)%nat;
     t_row := row_idx;
     t_col := 1 |}.

Definition mean_trace (x0 x1 m : option Q) (s col : string) (row_idx : nat)
    : Trace :=
  {| t_x := [x0; x1];
     t_y := [Val m; Val m];
     t_mode := Some "lines";
     t_name := Some (s ++ " (mean)")%string;
     t_color := col;
     t_dash := Some "dash";
     t_width := Some 2%Z;
     t_showlegend := (row_idx =? 1)%nat;
     t_row := row_idx;
     t_col := 1 |}.

Definition sigma_trace (x0 x1 : option Q) (y : ordinate) (col : string)
    (row_idx : nat) : Trace :=
  {| t_x := [x0; x1];
     t_y := [y; y];
     t_mode := Some "lines";
     t_name := None;
     t_color := col;
     t_dash := Some "dot";
     t_width := None;
     t_showlegend := false;
     t_row := row_idx;
     t_col := 1 |}.

(** The body of the inner loop: the traces of serial [s] in one panel. *)
Definition plot_serial (metric : Metric) (cm : list (string * string))
    (row_df : Frame) (row_idx : nat) (fig : Figure) (s : string) : Figure :=
  let g := filter (fun r => String.eqb (serial_of r) s) row_df in
  match g with
  | [] => fig
  | _ =>
      let col := color_of cm s in
      let fig := add_scatter fig (raw_trace metric g s col row_idx) in
      let m := mean (map (metric_of metric) g) in
      let sd := std 1 (map (metric_of metric) g) in
      let x0 := qmin (dropna (map x_of g)) in
      let x1 := qmax (dropna (map x_of g)) in
      let fig := add_scatter fig (mean_trace x0 x1 m s col row_idx) in
      match sd with
      | Some sd =>
          let fig := add_scatter fig (sigma_trace x0 x1 (Plus m sd) col row_idx) in
          add_scatter fig (sigma_trace x0 x1 (Minus m sd) col row_idx)
      | None => fig
      end
  end.

Definition plot_panels (metric : Metric) (serials : list string)
    (df_top df_bot : Frame) (fig : Figure) : Figure :=
  let cm := color_map serials in
  fold_left
    (fun fig (panel : Frame * nat) =>
       fold_left (plot_serial metric cm (fst panel) (snd panel)) serials fig)
    [(df_top, 1%nat); (df_bot, 2%nat)] fig.

Definition update_plot (data : option Frame) (metric : Metric)
    (compare_serials : option (list string)) (top_n : Z)
    : Figure * string * string :=
  match data with
  | None => (px_line, "", "")
  | Some df =>
      let df := keep_latest_run_only df in
      let all_serials := sorted (unique (map serial_of df)) in
      match select_serials all_serials compare_serials with
      | NoValid label warning => (px_line, label, warning)
      | Selected serials label warning =>
          let df := filter (fun r => contains (serial_of r) serials) df in
          let df_top := filter (x_le top_n) df in
          let df_bot := filter (x_gt top_n) df in
          let fig :=
            make_subplots
              [(metric_name metric ++ " 1–" ++ str_Z top_n)%string;
               (metric_name metric ++ " " ++ str_Z (top_n + 1) ++ "+")%string] in
          let fig := plot_panels metric serials df_top df_bot fig in
          (update_layout fig 850, label, warning)
      end
  end.

(* ================================================================== *)
(** ** The dashboard: layout, callbacks and their wiring *)
(* ================================================================== *)

Record DropdownOption : Type := {
  label : string;
  option_value : string
}.

(** A line of the [stats-table]; its columns are those of the layout. *)
Record StatsRow : Type := {
  stats_SerialNumber : string;
  stats_Channel : option Z;
  stats_Metric : Metric;
  stats_Mean : option Q;
  stats_StdDev : option root;
  stats_N : nat
}.

(** The files the program writes, by path. *)
Definition FileSystem : Type := list (string * Frame).

Definition to_csv (df : Frame) (path : string) (fs : FileSystem) : FileSystem :=
  dict_set path df fs.

(** The properties of the layout's components that a callback reads or
    writes, the [data] of the table, and the disk. *)
Record AppState : Type := {
  data_store : option Frame;                       (* data-store.data *)
  compare_options : list DropdownOption;           (* compare-serials.options *)
  metric_dropdown : Metric;                        (* metric-dropdown.value *)
  compare_serials_value : option (list string);    (* compare-serials.value *)
  top_n_value : Z;                                 (* top-n.value *)
  plot_figure : Figure;                            (* plot.figure *)
  run_label : string;                              (* run-label.children *)
  compare_warning : string;                        (* compare-warning.children *)
  stats_table_data : list StatsRow;                (* stats-table.data *)
  disk : FileSystem
}.

Inductive event : Type :=
| Upload (contents : string)
| SelectMetric (m : Metric)
| SelectSerials (serials : option (list string))
| SetTopN (n : Z).

Section Dashboard.

(** [parse_uploaded_csv]: base64 decoding and [pd.read_csv] are library
    code; the payload either decodes to a table or raises. *)
Variable parse_uploaded_csv : string -> result RawFrame.

(** The callback [load_csv]: its return value, and the disk after it. *)
Definition load_csv (contents : string) (fs : FileSystem)
    : result (Frame * list DropdownOption) * FileSystem :=
  match (df <- parse_uploaded_csv contents ;;
         df <- ensure_columns df ;;
         Ok (add_run_index df)) with
  | Raise e => (Raise e, fs)
  | Ok df =>
      let fs := to_csv df DATA_CSV fs in
      let serials := sorted (unique (map serial_of df)) in
      (Ok (df, map (fun s => {| label := s; option_value := s |}) serials), fs)
  end.

(** The state the layout starts in, after the first run of [update_plot]
    on an empty store. *)
Definition initial_state : AppState :=
  {| data_store := None;
     compare_options := [];
     metric_dropdown := RAW;
     compare_serials_value := None;
     top_n_value := 100;
     plot_figure := px_line;
     run_label := "";
     compare_warning := "";
     stats_table_data := [];
     disk := [] |}.

(** Running [update_plot] on its inputs and storing its three outputs. *)
Definition fire_update_plot (st : AppState) : AppState :=
  let '(fig, lbl, warning) :=
    update_plot (data_store st) (metric_dropdown st)
                (compare_serials_value st) (top_n_value st) in
  {| data_store := data_store st;
     compare_options := compare_options st;
     metric_dropdown := metric_dropdown st;
     compare_serials_value := compare_serials_value st;
     top_n_value := top_n_value st;
     plot_figure := fig;
     run_label := lbl;
     compare_warning := warning;
     stats_table_data := stats_table_data st;
     disk := disk st |}.

(** Running [load_csv]: a callback that raises updates none of its
    outputs; what it wrote to the disk before raising stays written. *)
Definition fire_load_csv (contents : string) (st : AppState) : AppState :=
  match load_csv contents (disk st) with
  | (Ok (data, options), fs) =>
      fire_update_plot
        {| data_store := Some data;
           compare_options := options;
           metric_dropdown := metric_dropdown st;
           compare_serials_value := compare_serials_value st;
           top_n_value := top_n_value st;
           plot_figure := plot_figure st;
           run_label := run_label st;
           compare_warning := compare_warning st;
           stats_table_data := stats_table_data st;
           disk := fs |}
  | (Raise _, fs) =>
      {| data_store := data_store st;
         compare_options := compare_options st;
         metric_dropdown := metric_dropdown st;
         compare_serials_value := compare_serials_value st;
         top_n_value := top_n_value st;
         plot_figure := plot_figure st;
         run_label := run_label st;
         compare_warning := compare_warning st;
         stats_table_data := stats_table_data st;
         disk := fs |}
  end.

Definition step (st : AppState) (e : event) : AppState :=
  match e with
  | Upload contents => fire_load_csv contents st
  | SelectMetric m =>
      fire_update_plot
        {| data_store := data_store st;
           compare_options := compare_options st;
           metric_dropdown := m;
           compare_serials_value := compare_serials_value st;
           top_n_value := top_n_value st;
           plot_figure := plot_figure st;
           run_label := run_label st;
           compare_warning := compare_warning st;
           stats_table_data := stats_table_data st;
           disk := disk st |}
  | SelectSerials v =>
      fire_update_plot
        {| data_store := data_store st;
           compare_options := compare_options st;
           metric_dropdown := metric_dropdown st;
           compare_serials_value := v;
           top_n_value := top_n_value st;
           plot_figure := plot_figure st;
           run_label := run_label st;
           compare_warning := compare_warning st;
           stats_table_data := stats_table_data st;
           disk := disk st |}
  | SetTopN n =>
      fire_update_plot
        {| data_store := data_store st;
           compare_options := compare_options st;
           metric_dropdown := metric_dropdown st;
           compare_serials_value := compare_serials_value st;
           top_n_value := n;
           plot_figure := plot_figure st;
           run_label := run_label st;
           compare_warning := compare_warning st;
           stats_table_data := stats_table_data st;
           disk := disk st |}
  end.

Definition run (events : list event) : AppState :=
  fold_left step events initial_state.

End Dashboard.

(* ================================================================== *)
(** ** Vocabulary of the statements, and the data sets of the examples *)
(* ================================================================== *)

(** Some row of group [k] carries run index [v]. *)
Definition in_group (df : Frame) (k : key) (v : Z) : Prop :=
  exists r, In r df /\ row_key r = Some k /\ RunIndex r = Some v.

(** [m] is the largest run index carried by group [k]. *)
Definition is_group_max (df : Frame) (k : key) (m : Z) : Prop :=
  in_group df k m /\ forall v, in_group df k v -> (v <= m)%Z.

(** Every row of a group carries a run index. *)
Definition has_run_indices (df : Frame) : bool :=
  forallb (fun r => implb (notna (row_key r)) (notna (RunIndex r))) df.

Definition latest_of (m : list (key * Z)) (r : Row) : option Z :=
  match row_key r with
  | Some k => lookup k m
  | None => None
  end.

Definition is_latest (m : list (key * Z)) (r : Row) : bool :=
  eq_na (RunIndex r) (latest_of m r).

(** The rows the filter keeps are the rows that carry their group's
    largest run index. *)
Definition carries_group_max (df : Frame) (r : Row) : Prop :=
  exists k m, row_key r = Some k /\ RunIndex r = Some m /\ is_group_max df k m.

Definition boundaries (df : list Sample) : list bool :=
  map (fun d => lt (fillna 1 d) 0) (group_diff [] df).

Definition has_channel (r : Row) : bool := notna (Channel (sample r)).

(** What the comparisons of the two key columns have in common. *)
Definition well_ordered (A : Type) (cmp : A -> A -> comparison) : Prop :=
  (forall a, cmp a a = Eq)
  /\ (forall a b, cmp a b = Eq -> a = b)
  /\ (forall a b c, cmp a b = Lt -> cmp b c = Lt -> cmp a c = Lt).

Definition sample_le (a b : Sample) : Prop := is_true (sample_leb a b).

(** One device, one channel, x values 1, 2, 3, 1, 2 in this order. *)
Definition restart_example : list Sample :=
  map (fun x => mk_sample "A" (Some 1%Z) (Some (inject_Z x))) [1; 2; 3; 1; 2]%Z.

(** A table whose only row has a sample count that does not read as a
    number. *)
Definition null_x_record : RawRecord :=
  {| raw_SerialNumber := "A"; raw_Channel := Num 1;
     raw_SampleCount := Text "abc"; raw_Date := ""; raw_Time := "";
     raw_FileMTime := Blank; raw_metric := no_metrics |}.

Definition null_x_raw : RawFrame :=
  {| columns := ["SerialNumber"; "Channel"; "SampleCount"; "RAW"];
     records := [null_x_record] |}.

Definition null_x_row : Row :=
  {| sample := make_sample null_x_raw (null_x_record, (Some 1%Z, None));
     RunIndex := Some 0%Z |}.

(** What a channel cell becomes when the cast to Int64 goes through. *)
Definition channel_of (c : cell) : option Z :=
  match c with
  | Num q => Some (Qnum (Qred q))
  | Text _ => None
  | Blank => None
  end.

(** A channel cell that is a whole number, or that does not read as a
    number at all. *)
Definition whole_or_unparseable (c : cell) : bool :=
  match c with
  | Num q => is_integral q
  | Text _ => true
  | Blank => true
  end.

Definition whole_channels (df : RawFrame) : bool :=
  forallb (fun r => whole_or_unparseable (raw_Channel r)) (records df).

(** The normalised form of one record. *)
Definition normalise (df : RawFrame) (r : RawRecord) : Sample :=
  {| SerialNumber := raw_SerialNumber r;
     SerialID := strip (raw_SerialNumber r);
     Channel := channel_of (raw_Channel r);
     SampleCount := to_numeric_coerce (raw_SampleCount r);
     X := to_numeric_coerce (raw_SampleCount r);
     Timestamp := make_timestamp df r;
     value := raw_metric r |}.


(** A table whose channel cell reads as the number 3/2. *)
Definition fractional_channel_raw : RawFrame :=
  {| columns := ["SerialNumber"; "Channel"; "SampleCount"];
     records := [ {| raw_SerialNumber := "A"; raw_Channel := Num (3 # 2);
                     raw_SampleCount := Num 1; raw_Date := ""; raw_Time := "";
                     raw_FileMTime := Blank; raw_metric := no_metrics |} ] |}.

(** A state with a stored data set and a data file, to upload onto. *)
Definition loaded_state : AppState :=
  {| data_store := Some (add_run_index restart_example);
     compare_options := [ {| label := "A"; option_value := "A" |} ];
     metric_dropdown := RAW;
     compare_serials_value := None;
     top_n_value := 100;
     plot_figure := px_line;
     run_label := "All serials (latest run)";
     compare_warning := "";
     stats_table_data := [];
     disk := [(DATA_CSV, add_run_index restart_example)] |}.

Definition no_serial_raw : RawFrame :=
  {| columns := ["Channel"; "SampleCount"; "RAW"]; records := [] |}.

(** A table with one device, one channel and two RAW observations. *)
Definition observed_record (x raw : Z) : RawRecord :=
  {| raw_SerialNumber := "A"; raw_Channel := Num 1;
     raw_SampleCount := Num (inject_Z x); raw_Date := ""; raw_Time := "";
     raw_FileMTime := Blank;
     raw_metric := fun m => match m with
                            | RAW => Some (inject_Z raw)
                            | _ => None
                            end |}.

Definition observed_raw : RawFrame :=
  {| columns := ["SerialNumber"; "Channel"; "SampleCount"; "RAW"];
     records := [observed_record 1 10; observed_record 2 12] |}.

(** The rows of serial [s] in a panel. *)
Definition group_of (row_df : Frame) (s : string) : Frame :=
  filter (fun r => String.eqb (serial_of r) s) row_df.


Definition x_first (g : Frame) : option Q := qmin (dropna (map x_of g)).
Definition x_last (g : Frame) : option Q := qmax (dropna (map x_of g)).

Definition sigma_traces (metric : Metric) (g : Frame) (col : string)
    (row_idx : nat) : list Trace :=
  let m := mean (map (metric_of metric) g) in
  match std 1 (map (metric_of metric) g) with
  | Some sd =>
      [sigma_trace (x_first g) (x_last g) (Plus m sd) col row_idx;
       sigma_trace (x_first g) (x_last g) (Minus m sd) col row_idx]
  | None => []
  end.

(** What one turn of the inner loop adds to the figure. *)
Definition serial_traces (metric : Metric) (cm : list (string * string))
    (row_df : Frame) (row_idx : nat) (s : string) : list Trace :=
  let g := group_of row_df s in
  match g with
  | [] => []
  | _ =>
      raw_trace metric g s (color_of cm s) row_idx
      :: mean_trace (x_first g) (x_last g) (mean (map (metric_of metric) g))
           s (color_of cm s) row_idx
      :: sigma_traces metric g (color_of cm s) row_idx
  end.

(** The rows of a panel: those of the selected serials, on their side of the
    threshold. *)
Definition panel (df : Frame) (serials : list string) (top_n : Z)
    (row_idx : nat) : Frame :=
  let df := filter (fun r => contains (serial_of r) serials) df in
  if (row_idx =? 1)%nat then filter (x_le top_n) df else filter (x_gt top_n) df.


Definition selection_of (df : Frame) (compare_serials : option (list string))
    : selection :=
  select_serials (sorted (unique (map serial_of (keep_latest_run_only df))))
                 compare_serials.

Definition figure_of (out : Figure * string * string) : Figure := fst (fst out).

Definition is_sigma (t : Trace) : bool :=
  match t_dash t with
  | Some d => String.eqb d "dot"
  | None => false
  end.

(** The stored data set after the upload of [observed_raw]. *)
Definition observed_frame : Frame :=
  match ensure_columns observed_raw with
  | Ok samples => add_run_index samples
  | Raise _ => []
  end.

(** A device is present when the filtered data set has a row of it. *)
Definition present (kept : Frame) (s : string) : Prop :=
  exists r, In r kept /\ serial_of r = s.


(** ** Vocabulary of the further properties *)

(** The options [load_csv] returns for the selector: one per device of the
    uploaded table, label and value both the identifier. *)
Definition options_of (df : Frame) : list DropdownOption :=
  map (fun s => {| label := s; option_value := s |})
      (sorted (unique (map serial_of df))).

(** The table an upload stores, when it stores one. *)
Definition uploaded (parse_uploaded_csv : string -> result RawFrame)
    (contents : string) : result Frame :=
  df <- parse_uploaded_csv contents ;;
  df <- ensure_columns df ;;
  Ok (add_run_index df).

(** The table of the last upload that went through, if any. *)
Definition last_stored (parse_uploaded_csv : string -> result RawFrame)
    (events : list event) : option Frame :=
  fold_left
    (fun acc e =>
       match e with
       | Upload contents =>
           match uploaded parse_uploaded_csv contents with
           | Ok df => Some df
           | Raise _ => acc
           end
       | _ => acc
       end) events None.

(** The selector options that go with a store. *)
Definition options_for (data : option Frame) : list DropdownOption :=
  match data with
  | Some df => options_of df
  | None => []
  end.

(** The three outputs of [update_plot] shown in a state. *)
Definition shown (st : AppState) : Figure * string * string :=
  (plot_figure st, run_label st, compare_warning st).

(** The colour at position [i] of the selected serials. *)
Definition pool_color (i : nat) : string :=
  nth (i mod List.length COLOR_POOL) COLOR_POOL "".


(** The exception of a cast to Int64 that does not go through. *)
Definition cast_error : error :=
  TypeError "cannot safely cast non-equivalent float64 to int64".

Definition head_is_space (s : string) : bool :=
  match s with
  | String c _ => is_space c
  | EmptyString => false
  end.

Fixpoint last_is_space (s : string) : bool :=
  match s with
  | EmptyString => false
  | String c EmptyString => is_space c
  | String _ s' => last_is_space s'
  end.

(** The displayed outputs are those of [update_plot] on the current inputs;
    the data file holds the stored table; the options are its devices. *)
Definition in_step (st : AppState) : Prop :=
  shown st = update_plot (data_store st) (metric_dropdown st)
                         (compare_serials_value st) (top_n_value st)
  /\ dict_get DATA_CSV (disk st) = data_store st
  /\ compare_options st = options_for (data_store st).


(** One step of the dictionary comprehension that builds [color_map]. *)
Definition set_color (d : list (string * string)) (it : nat * string)
    : list (string * string) :=
  dict_set (snd it) (pool_color (fst it)) d.


(* ================================================================== *)
(** * Properties *)
(* ================================================================== *)

(** ** Keys and accumulators *)

Lemma key_eqb_eq (a b : key) : key_eqb a b = true <-> a = b.
Proof.
  destruct a as [s c], b as [s' c']. unfold key_eqb. simpl.
  rewrite andb_true_iff, String.eqb_eq, Z.eqb_eq.
  split; [intros [-> ->]; reflexivity | intros H; inversion H; auto].
Qed.

Lemma key_eqb_refl (a : key) : key_eqb a a = true.
Proof. apply key_eqb_eq. reflexivity. Qed.

Lemma key_eqb_neq (a b : key) : key_eqb a b = false <-> a <> b.
Proof.
  rewrite <- key_eqb_eq. destruct (key_eqb a b); split; congruence.
Qed.

Lemma lookup_cons_eq {V : Type} (k : key) (v : V) (m : list (key * V)) :
  lookup k ((k, v) :: m) = Some v.
Proof. simpl. rewrite key_eqb_refl. reflexivity. Qed.

Lemma lookup_cons_ne {V : Type} (k k' : key) (v : V) (m : list (key * V)) :
  k <> k' -> lookup k ((k', v) :: m) = lookup k m.
Proof. intros H. simpl. apply key_eqb_neq in H. rewrite H. reflexivity. Qed.

(** ** The latest-run filter as a filter *)

Lemma filter_combine_map {A B : Type} (f : A -> B) (p : A -> B -> bool)
    (l : list A) :
  map fst (filter (fun ab => p (fst ab) (snd ab)) (combine l (map f l)))
  = filter (fun a => p a (f a)) l.
Proof.
  induction l as [|a l IH]; simpl; [reflexivity|].
  destruct (p a (f a)); simpl; rewrite IH; reflexivity.
Qed.

Lemma keep_latest_run_only_filter (df : Frame) :
  keep_latest_run_only df = filter (is_latest (group_max [] df)) df.
Proof.
  unfold keep_latest_run_only, transform_max.
  apply (filter_combine_map (latest_of (group_max [] df))
           (fun r l => eq_na (RunIndex r) l)).
Qed.

Lemma in_group_cons (r : Row) (df : Frame) (k : key) (v : Z) :
  in_group (r :: df) k v <->
  (row_key r = Some k /\ RunIndex r = Some v) \/ in_group df k v.
Proof.
  unfold in_group. split.
  - intros [r' [[<- | Hin] [Hk Hv]]]; [left; auto | right; eauto].
  - intros [[Hk Hv] | [r' [Hin [Hk Hv]]]].
    + exists r; simpl; auto.
    + exists r'; simpl; auto.
Qed.

(** What the accumulator holds for [k] once the rows of [df] are folded in:
    a value that comes from the start or from a row, and bounds both. *)
Lemma group_max_sound (df : Frame) :
  forall acc k m,
    lookup k (group_max acc df) = Some m ->
    (lookup k acc = Some m \/ in_group df k m)
    /\ (forall a, lookup k acc = Some a -> (a <= m)%Z)
    /\ (forall v, in_group df k v -> (v <= m)%Z).
Proof.
  induction df as [|r df IH]; intros acc k m H; simpl in H.
  - repeat split; auto.
    + intros a Ha. rewrite H in Ha. inversion Ha. lia.
    + intros v [r [[] _]].
  - destruct (row_key r) as [k'|] eqn:Hk; [destruct (RunIndex r) as [v'|] eqn:Hv|].
    + assert (Hstep : exists n,
                 lookup k (group_max ((k', n) :: acc) df) = Some m
                 /\ (v' <= n)%Z
                 /\ (n = v' \/ lookup k' acc = Some n)
                 /\ (forall a, lookup k' acc = Some a -> (a <= n)%Z)).
      { destruct (lookup k' acc) as [m0|] eqn:Hacc.
        - exists (Z.max m0 v'). repeat split; auto; try lia.
          + destruct (Z.max_spec m0 v') as [[_ ->] | [_ ->]]; auto.
          + intros a Ha. inversion Ha. lia.
        - exists v'. repeat split; auto; try lia. intros a Ha. discriminate. }
      destruct Hstep as [n [Hn [Hle [Hfrom Hub]]]].
      destruct (IH _ _ _ Hn) as [Hsrc [Hacc' Hrows]].
      destruct (key_eqb k k') eqn:E.
      * apply key_eqb_eq in E. subst k'.
        rewrite lookup_cons_eq in Hsrc, Hacc'.
        assert (Hnm : (n <= m)%Z) by (apply Hacc'; reflexivity).
        repeat split.
        -- destruct Hsrc as [Hsrc | Hsrc].
           ++ inversion Hsrc. subst n.
              destruct Hfrom as [-> | Hfrom]; [right | left; assumption].
              apply in_group_cons. left. auto.
           ++ right. apply in_group_cons. right. assumption.
        -- intros a Ha. specialize (Hub a Ha). lia.
        -- intros v Hin. apply in_group_cons in Hin.
           destruct Hin as [[_ Hv2] | Hin]; [|auto].
           rewrite Hv in Hv2. inversion Hv2. lia.
      * apply key_eqb_neq in E.
        rewrite (lookup_cons_ne _ _ _ _ E) in Hsrc, Hacc'.
        repeat split.
        -- destruct Hsrc as [Hsrc | Hsrc]; [left; assumption | right].
           apply in_group_cons. right. assumption.
        -- assumption.
        -- intros v Hin. apply in_group_cons in Hin.
           destruct Hin as [[Hk2 _] | Hin]; [|auto].
           rewrite Hk in Hk2. inversion Hk2. congruence.
    + destruct (IH _ _ _ H) as [Hsrc [Hacc' Hrows]]. repeat split.
      * destruct Hsrc; [left; assumption | right].
        apply in_group_cons. right. assumption.
      * assumption.
      * intros v Hin. apply in_group_cons in Hin.
        destruct Hin as [[_ Hv2] | Hin]; [congruence | auto].
    + destruct (IH _ _ _ H) as [Hsrc [Hacc' Hrows]]. repeat split.
      * destruct Hsrc; [left; assumption | right].
        apply in_group_cons. right. assumption.
      * assumption.
      * intros v Hin. apply in_group_cons in Hin.
        destruct Hin as [[Hk2 _] | Hin]; [congruence | auto].
Qed.

(** A group that starts in the accumulator or has a row with a run index
    ends up in the accumulator. *)
Lemma group_max_complete (df : Frame) :
  forall acc k,
    lookup k (group_max acc df) = None ->
    lookup k acc = None /\ forall v, ~ in_group df k v.
Proof.
  induction df as [|r df IH]; intros acc k H; simpl in H.
  - split; auto. intros v [r [[] _]].
  - destruct (row_key r) as [k'|] eqn:Hk; [destruct (RunIndex r) as [v'|] eqn:Hv|].
    + assert (Hstep : exists n, lookup k (group_max ((k', n) :: acc) df) = None).
      { destruct (lookup k' acc); eauto. }
      destruct Hstep as [n Hn]. destruct (IH _ _ Hn) as [Hacc Hrows].
      destruct (key_eqb k k') eqn:E.
      * apply key_eqb_eq in E. subst k'. rewrite lookup_cons_eq in Hacc.
        discriminate.
      * apply key_eqb_neq in E. rewrite (lookup_cons_ne _ _ _ _ E) in Hacc.
        split; auto. intros v Hin. apply in_group_cons in Hin.
        destruct Hin as [[Hk2 _] | Hin]; [|apply (Hrows v Hin)].
        rewrite Hk in Hk2. inversion Hk2. congruence.
    + destruct (IH _ _ H) as [Hacc Hrows]. split; auto.
      intros v Hin. apply in_group_cons in Hin.
      destruct Hin as [[_ Hv2] | Hin]; [congruence | apply (Hrows v Hin)].
    + destruct (IH _ _ H) as [Hacc Hrows]. split; auto.
      intros v Hin. apply in_group_cons in Hin.
      destruct Hin as [[Hk2 _] | Hin]; [congruence | apply (Hrows v Hin)].
Qed.

Lemma group_max_spec (df : Frame) (k : key) (m : Z) :
  lookup k (group_max [] df) = Some m <-> is_group_max df k m.
Proof.
  split.
  - intros H. destruct (group_max_sound df [] k m H) as [[Hsrc | Hsrc] [_ Hub]].
    + discriminate.
    + split; assumption.
  - intros [Hin Hub].
    destruct (lookup k (group_max [] df)) as [m'|] eqn:E.
    + destruct (group_max_sound df [] k m' E) as [[Hsrc | Hsrc] [_ Hub']].
      * discriminate.
      * f_equal. specialize (Hub _ Hsrc). specialize (Hub' _ Hin). lia.
    + destruct (group_max_complete df [] k E) as [_ Hno].
      exfalso. apply (Hno m Hin).
Qed.

Lemma is_latest_spec (df : Frame) (r : Row) :
  is_latest (group_max [] df) r = true <->
  exists k m, row_key r = Some k /\ RunIndex r = Some m /\ is_group_max df k m.
Proof.
  unfold is_latest, latest_of, eq_na. split.
  - destruct (RunIndex r) as [v|]; [|discriminate].
    destruct (row_key r) as [k|]; [|discriminate].
    destruct (lookup k (group_max [] df)) as [m|] eqn:E; [|discriminate].
    intros H. apply Z.eqb_eq in H. subst m.
    exists k, v. split; [reflexivity|]. split; [reflexivity|].
    apply group_max_spec. assumption.
  - intros [k [m [-> [-> H]]]]. apply group_max_spec in H. rewrite H.
    apply Z.eqb_refl.
Qed.

Lemma keep_latest_run_only_In (df : Frame) (r : Row) :
  In r (keep_latest_run_only df) <-> In r df /\ carries_group_max df r.
Proof.
  rewrite keep_latest_run_only_filter, filter_In.
  unfold carries_group_max. rewrite is_latest_spec. reflexivity.
Qed.

Lemma filter_all {A : Type} (p : A -> bool) (l : list A) :
  (forall a, In a l -> p a = true) -> filter p l = l.
Proof.
  induction l as [|a l IH]; intros H; simpl; [reflexivity|].
  rewrite (H a (or_introl eq_refl)). f_equal. apply IH.
  intros b Hb. apply H. right. assumption.
Qed.

Lemma has_run_indices_In (df : Frame) (r : Row) (k : key) :
  has_run_indices df = true -> In r df -> row_key r = Some k ->
  exists v, RunIndex r = Some v.
Proof.
  unfold has_run_indices. rewrite forallb_forall. intros H Hin Hk.
  specialize (H r Hin). rewrite Hk in H. simpl in H.
  destruct (RunIndex r) as [v|]; [eauto | discriminate].
Qed.

(** C2.  [keep_latest_run_only] returns exactly the rows whose run index is
    the largest of their (device, channel) group, in their order and with
    their multiplicity, and every group of the input keeps at least one row.
    A group is a pair of a device and a channel value, as [groupby] forms
    them; in a data set with run indices every row of a group carries one. *)
Theorem keep_latest_run_only_exact (df : Frame) :
  has_run_indices df = true ->
  (forall r, In r (keep_latest_run_only df) <->
             In r df /\ carries_group_max df r)
  /\ (forall f : Row -> bool,
        (forall r, In r df -> (f r = true <-> carries_group_max df r)) ->
        keep_latest_run_only df = filter f df)
  /\ (forall r k, In r df -> row_key r = Some k ->
        exists r', In r' (keep_latest_run_only df) /\ row_key r' = Some k).
Proof.
  intros Hidx. split; [|split].
  - apply keep_latest_run_only_In.
  - intros f Hf. rewrite keep_latest_run_only_filter.
    apply filter_ext_in. intros r Hin.
    destruct (f r) eqn:E.
    + apply is_latest_spec. apply Hf; assumption.
    + destruct (is_latest (group_max [] df) r) eqn:E'; [|reflexivity].
      apply is_latest_spec in E'. apply Hf in E'; [congruence | assumption].
  - intros r k Hin Hk.
    destruct (has_run_indices_In df r k Hidx Hin Hk) as [v Hv].
    destruct (lookup k (group_max [] df)) as [m|] eqn:E.
    + apply group_max_spec in E. destruct E as [[r' [Hin' [Hk' Hv']]] Hub].
      exists r'. split; [|assumption].
      apply keep_latest_run_only_In. split; [assumption|].
      exists k, m. repeat split; auto. exists r'. auto.
    + destruct (group_max_complete df [] k E) as [_ Hno].
      exfalso. apply (Hno v). exists r. auto.
Qed.

(** C6.  Applying [keep_latest_run_only] twice gives what applying it once
    gives. *)
Theorem keep_latest_run_only_idempotent (df : Frame) :
  keep_latest_run_only (keep_latest_run_only df) = keep_latest_run_only df.
Proof.
  rewrite (keep_latest_run_only_filter (keep_latest_run_only df)).
  apply filter_all. intros r Hr. apply is_latest_spec.
  pose proof Hr as Hr'. apply keep_latest_run_only_In in Hr'.
  destruct Hr' as [Hin [k [m [Hk [Hv [_ Hub]]]]]].
  exists k, m. split; [assumption|]. split; [assumption|]. split.
  - exists r. auto.
  - intros v [r' [Hin' [Hk' Hv']]]. apply Hub.
    apply keep_latest_run_only_In in Hin'. destruct Hin' as [Hin' _].
    exists r'. auto.
Qed.

(** ** The run index column *)

Lemma group_diff_length (df : list Sample) :
  forall last, List.length (group_diff last df) = List.length df.
Proof.
  induction df as [|s df IH]; intros last; simpl; [reflexivity|].
  destruct (group_key s); simpl; rewrite IH; reflexivity.
Qed.

Lemma group_cumsum_length (keys : list (option key)) :
  forall acc flags,
    List.length flags = List.length keys ->
    List.length (group_cumsum acc keys flags) = List.length keys.
Proof.
  induction keys as [|k keys IH]; intros acc [|b flags] H; simpl in *;
    try reflexivity; try discriminate.
  destruct k; simpl; rewrite IH; auto.
Qed.

(** The run index is missing on the rows of no group, and only there. *)
Lemma group_cumsum_missing (df : list Sample) :
  forall acc flags s run,
    In (s, run) (combine df (group_cumsum acc (map group_key df) flags)) ->
    (group_key s = None <-> run = None).
Proof.
  induction df as [|s0 df IH]; intros acc flags s run H; simpl in H; [tauto|].
  destruct flags as [|b flags]; [destruct H|].
  destruct (group_key s0) as [k|] eqn:Hk; simpl in H.
  - destruct H as [H | H].
    + inversion H. subst. rewrite Hk. split; discriminate.
    + apply (IH _ _ _ _ H).
  - destruct H as [H | H].
    + inversion H. subst. rewrite Hk. tauto.
    + apply (IH _ _ _ _ H).
Qed.

Lemma add_run_index_unfold (df : list Sample) :
  add_run_index df =
  map with_run_index
    (combine (sort_values df)
       (group_cumsum [] (map group_key (sort_values df))
          (boundaries (sort_values df)))).
Proof. reflexivity. Qed.

Lemma boundaries_length (df : list Sample) :
  List.length (boundaries df) = List.length df.
Proof. unfold boundaries. rewrite length_map. apply group_diff_length. Qed.

Lemma map_fst_combine {A B : Type} (l : list A) (l' : list B) :
  List.length l' = List.length l -> map fst (combine l l') = l.
Proof.
  revert l'. induction l as [|a l IH]; intros [|b l'] H; simpl in *;
    try reflexivity; try discriminate.
  f_equal. apply IH. lia.
Qed.

(** No row is lost or invented: the rows of the result are the sorted rows
    of the input. *)
Lemma add_run_index_samples (df : list Sample) :
  map sample (add_run_index df) = sort_values df.
Proof.
  rewrite add_run_index_unfold, map_map. simpl.
  change (fun x : Sample * option Z => fst x) with (@fst Sample (option Z)).
  apply map_fst_combine.
  rewrite group_cumsum_length; rewrite ?length_map, ?boundaries_length; reflexivity.
Qed.

Lemma add_run_index_permutation (df : list Sample) :
  Permutation df (map sample (add_run_index df)).
Proof. rewrite add_run_index_samples. apply SampleSort.Permuted_sort. Qed.

Lemma add_run_index_missing (df : list Sample) (r : Row) :
  In r (add_run_index df) -> (row_key r = None <-> RunIndex r = None).
Proof.
  rewrite add_run_index_unfold, in_map_iff.
  intros [[s run] [<- H]]. unfold row_key. simpl.
  apply (group_cumsum_missing _ _ _ _ _ H).
Qed.

Lemma group_key_None (s : Sample) : group_key s = None <-> Channel s = None.
Proof. unfold group_key. destruct (Channel s); split; congruence. Qed.

Lemma add_run_index_has_run_indices (df : list Sample) :
  has_run_indices (add_run_index df) = true.
Proof.
  unfold has_run_indices. apply forallb_forall. intros r Hr.
  pose proof (add_run_index_missing df r Hr) as H.
  destruct (row_key r), (RunIndex r); simpl; try reflexivity.
  destruct H as [_ H]. discriminate (H eq_refl).
Qed.

(** ** Rows without a channel *)

Lemma row_key_has_channel (r : Row) : row_key r = None <-> has_channel r = false.
Proof.
  unfold row_key, has_channel. rewrite group_key_None.
  destruct (Channel (sample r)); simpl; split; congruence.
Qed.


Lemma is_latest_has_channel (m : list (key * Z)) (r : Row) :
  is_latest m r = true -> has_channel r = true.
Proof.
  unfold is_latest, latest_of. intros H.
  destruct (has_channel r) eqn:E; [reflexivity|].
  apply row_key_has_channel in E. rewrite E in H.
  destruct (RunIndex r); discriminate.
Qed.




(** ** The sort leaves no decrease to find *)

Lemma string_compare_refl (s : string) : String.compare s s = Eq.
Proof.
  induction s as [|c s IH]; simpl; [reflexivity|].
  unfold Ascii.compare. rewrite N.compare_refl. assumption.
Qed.

Lemma string_compare_lt_trans (s1 : string) :
  forall s2 s3, String.compare s1 s2 = Lt -> String.compare s2 s3 = Lt ->
                String.compare s1 s3 = Lt.
Proof.
  induction s1 as [|c1 s1 IH]; intros [|c2 s2] [|c3 s3]; simpl;
    try discriminate; try reflexivity.
  destruct (Ascii.compare c1 c2) eqn:E12; try discriminate;
    destruct (Ascii.compare c2 c3) eqn:E23; try discriminate; intros H12 H23.
  - apply Ascii.compare_eq_iff in E12, E23. subst.
    unfold Ascii.compare. rewrite N.compare_refl. eauto.
  - apply Ascii.compare_eq_iff in E12. subst. rewrite E23. reflexivity.
  - apply Ascii.compare_eq_iff in E23. subst. rewrite E12. reflexivity.
  - unfold Ascii.compare in *. rewrite N.compare_lt_iff in *.
    assert (H : (N_of_ascii c1 < N_of_ascii c3)%N) by lia.
    apply N.compare_lt_iff in H. rewrite H. reflexivity.
Qed.

Lemma string_well_ordered : well_ordered string String.compare.
Proof.
  split; [exact string_compare_refl | split].
  - exact String.compare_eq_iff.
  - intros a b c. apply string_compare_lt_trans.
Qed.

Lemma channel_well_ordered : well_ordered (option Z) (compare_na_last Z.compare).
Proof.
  split; [|split].
  - intros [a|]; simpl; [apply Z.compare_refl | reflexivity].
  - intros [a|] [b|]; simpl; try discriminate; try reflexivity.
    intros H. apply Z.compare_eq in H. congruence.
  - intros [a|] [b|] [c|]; simpl; try discriminate; try reflexivity.
    rewrite !Z.compare_lt_iff. lia.
Qed.

Lemma x_leb_trans (a b c : option Q) :
  x_leb a b = true -> x_leb b c = true -> x_leb a c = true.
Proof.
  destruct a as [a|], b as [b|], c as [c|]; simpl; try discriminate;
    try reflexivity.
  rewrite !Qle_bool_iff. apply Qle_trans.
Qed.

Lemma sample_leb_trans (a b c : Sample) :
  sample_leb a b = true -> sample_leb b c = true -> sample_leb a c = true.
Proof.
  unfold sample_leb.
  destruct string_well_ordered as [Srefl [Seq Slt]].
  destruct channel_well_ordered as [Crefl [Ceq Clt]].
  destruct (String.compare (SerialID a) (SerialID b)) eqn:Sab; try discriminate;
    destruct (String.compare (SerialID b) (SerialID c)) eqn:Sbc;
    try discriminate.
  - apply Seq in Sab, Sbc. rewrite Sab, Sbc, Srefl.
    destruct (compare_na_last Z.compare (Channel a) (Channel b)) eqn:Cab;
      try discriminate;
      destruct (compare_na_last Z.compare (Channel b) (Channel c)) eqn:Cbc;
      try discriminate.
    + apply Ceq in Cab, Cbc. rewrite Cab, Cbc, Crefl. apply x_leb_trans.
    + apply Ceq in Cab. rewrite Cab, Cbc. reflexivity.
    + apply Ceq in Cbc. rewrite <- Cbc, Cab. reflexivity.
    + rewrite (Clt _ _ _ Cab Cbc). reflexivity.
  - apply Seq in Sab. rewrite Sab, Sbc. reflexivity.
  - apply Seq in Sbc. rewrite <- Sbc, Sab. reflexivity.
  - rewrite (Slt _ _ _ Sab Sbc). reflexivity.
Qed.

Lemma sort_values_sorted (df : list Sample) :
  StronglySorted sample_le (sort_values df).
Proof.
  apply SampleSort.StronglySorted_sort.
  intros a b c. apply sample_leb_trans.
Qed.

(** Two rows of one group are ordered by [X]. *)
Lemma same_group_x_leb (a b : Sample) (k : key) :
  sample_le a b -> group_key a = Some k -> group_key b = Some k ->
  x_leb (X a) (X b) = true.
Proof.
  unfold sample_le, is_true, sample_leb, group_key.
  destruct (Channel a) as [ca|] eqn:Ea; [|discriminate].
  destruct (Channel b) as [cb|] eqn:Eb; [|discriminate].
  intros H Ha Hb. inversion Ha. inversion Hb. subst k.
  match goal with E : (_, _) = (_, _) |- _ => inversion E as [[Hs Hc]] end.
  rewrite Hs, Hc, string_compare_refl in H. simpl in H.
  rewrite Z.compare_refl in H. assumption.
Qed.

Lemma no_decrease (p x : option Q) :
  x_leb p x = true -> lt (fillna 1 (qsub x p)) 0 = false.
Proof.
  unfold lt. destruct p as [p|], x as [x|]; simpl; try discriminate;
    try reflexivity.
  intros H. apply negb_false_iff. rewrite Qle_bool_iff in *.
  unfold Qminus. apply -> Qle_minus_iff. assumption.
Qed.

Lemma group_diff_no_boundary (df : list Sample) :
  forall last,
    StronglySorted sample_le df ->
    (forall k p s, lookup k last = Some p -> In s df ->
                   group_key s = Some k -> x_leb p (X s) = true) ->
    Forall (fun d => lt (fillna 1 d) 0 = false) (group_diff last df).
Proof.
  induction df as [|s df IH]; intros last Hsort Hlast; simpl; [constructor|].
  apply StronglySorted_inv in Hsort. destruct Hsort as [Hsort Hall].
  rewrite Forall_forall in Hall.
  destruct (group_key s) as [k|] eqn:Hk.
  - constructor.
    + destruct (lookup k last) as [p|] eqn:E; [|reflexivity].
      apply no_decrease. apply (Hlast k p s E); simpl; auto.
    + apply IH; [assumption|]. intros k' p s' Hl Hin Hk'.
      destruct (key_eqb k' k) eqn:Ek.
      * apply key_eqb_eq in Ek. subst k'. rewrite lookup_cons_eq in Hl.
        inversion Hl. subst p.
        apply (same_group_x_leb s s' k); auto.
      * apply key_eqb_neq in Ek. rewrite (lookup_cons_ne _ _ _ _ Ek) in Hl.
        apply (Hlast k' p s' Hl); simpl; auto.
  - constructor; [reflexivity|].
    apply IH; [assumption|]. intros k' p s' Hl Hin Hk'.
    apply (Hlast k' p s' Hl); simpl; auto.
Qed.

Lemma boundaries_none (df : list Sample) :
  Forall (fun b => b = false) (boundaries (sort_values df)).
Proof.
  unfold boundaries. apply Forall_map.
  apply group_diff_no_boundary; [apply sort_values_sorted|].
  intros k p s H. discriminate.
Qed.

Lemma group_cumsum_no_boundary (keys : list (option key)) :
  forall acc flags,
    Forall (fun b => b = false) flags ->
    (forall k n, lookup k acc = Some n -> n = 0%Z) ->
    Forall (fun run => run = None \/ run = Some 0%Z)
           (group_cumsum acc keys flags).
Proof.
  induction keys as [|k keys IH]; intros acc [|b flags] Hf Hacc; simpl;
    try (constructor; fail).
  - inversion Hf as [|b' fl Hb Hrest]. subst.
    destruct k as [k|].
    + assert (Hz : ((match lookup k acc with Some n => n | None => 0 end)
                    + 0 = 0)%Z).
      { destruct (lookup k acc) as [n|] eqn:E; [|reflexivity].
        rewrite (Hacc k n E). reflexivity. }
      rewrite Hz. constructor; [right; reflexivity|].
      apply IH; [assumption|]. intros k' n Hl.
      destruct (key_eqb k' k) eqn:Ek.
      * apply key_eqb_eq in Ek. subst k'. rewrite lookup_cons_eq in Hl.
        congruence.
      * apply key_eqb_neq in Ek. rewrite (lookup_cons_ne _ _ _ _ Ek) in Hl.
        eauto.
    + constructor; [left; reflexivity|]. apply IH; assumption.
Qed.

(** The rows come out in the order of the sort, so within a group [X]
    never decreases from a row to a later one. *)
Lemma add_run_index_sorted (df : list Sample) :
  StronglySorted sample_le (map sample (add_run_index df)).
Proof. rewrite add_run_index_samples. apply sort_values_sorted. Qed.

(** Whatever the input, every row of a group ends up in run 0: after the
    sort by [X] no difference within a group is negative. *)
Lemma add_run_index_single_run (df : list Sample) (r : Row) :
  In r (add_run_index df) ->
  RunIndex r = match Channel (sample r) with
               | Some _ => Some 0%Z
               | None => None
               end.
Proof.
  intros Hin. pose proof (add_run_index_missing df r Hin) as Hmiss.
  rewrite add_run_index_unfold, in_map_iff in Hin.
  destruct Hin as [[s run] [<- Hin]]. simpl in *.
  apply in_combine_r in Hin.
  pose proof (group_cumsum_no_boundary (map group_key (sort_values df)) []
                (boundaries (sort_values df)) (boundaries_none df)) as H.
  rewrite Forall_forall in H.
  destruct (H ltac:(intros k n Hl; discriminate) run Hin) as [-> | ->].
  - destruct Hmiss as [_ Hm]. specialize (Hm eq_refl).
    unfold row_key in Hm. simpl in Hm. apply group_key_None in Hm.
    rewrite Hm. reflexivity.
  - destruct (Channel s) eqn:E; [reflexivity|].
    destruct Hmiss as [Hm _]. unfold row_key in Hm. simpl in Hm.
    rewrite group_key_None in Hm. specialize (Hm E). discriminate.
Qed.

(** ** Run segmentation on the restart example *)

(** C1.  On the single-device, single-channel data set with x values
    [1,2,3,1,2], [add_run_index] reads the rows in the order 1, 1, 2, 2, 3 and
    gives every row run index 0, not [0,0,0,1,1]; [keep_latest_run_only] then
    keeps all five rows. *)
Theorem restart_example_run_index :
  xs_of (add_run_index restart_example)
  = [Some 1; Some 1; Some 2; Some 2; Some 3]
  /\ runs_of (add_run_index restart_example)
     = [Some 0; Some 0; Some 0; Some 0; Some 0]%Z
  /\ runs_of (add_run_index restart_example)
     <> [Some 0; Some 0; Some 0; Some 1; Some 1]%Z
  /\ List.length (keep_latest_run_only (add_run_index restart_example)) = 5%nat.
Proof.
  split; [reflexivity|]. split; [reflexivity|]. split; [|reflexivity].
  vm_compute. discriminate.
Qed.

(** ** The two panels *)

Lemma x_le_spec (top_n : Z) (r : Row) :
  x_le top_n r = true <-> exists x, x_of r = Some x /\ x <= inject_Z top_n.
Proof.
  unfold x_le. destruct (x_of r) as [x|].
  - rewrite Qle_bool_iff. split; [eauto|]. intros [x' [H Hle]].
    inversion H. subst. assumption.
  - split; [discriminate | intros [x [H _]]; discriminate].
Qed.

Lemma x_gt_spec (top_n : Z) (r : Row) :
  x_gt top_n r = true <-> exists x, x_of r = Some x /\ inject_Z top_n < x.
Proof.
  unfold x_gt. destruct (x_of r) as [x|].
  - rewrite negb_true_iff. split.
    + intros H. exists x. split; [reflexivity|]. apply Qnot_le_lt.
      intros Hle. apply Qle_bool_iff in Hle. congruence.
    + intros [x' [H Hlt]]. inversion H. subst x'.
      destruct (Qle_bool x (inject_Z top_n)) eqn:E; [|reflexivity].
      apply Qle_bool_iff in E. exfalso. apply (Qlt_not_le _ _ Hlt E).
  - split; [discriminate | intros [x [H _]]; discriminate].
Qed.

Lemma x_le_gt_exclusive (top_n : Z) (r : Row) :
  x_of r <> None -> x_gt top_n r = negb (x_le top_n r).
Proof. unfold x_gt, x_le. destruct (x_of r); [reflexivity | congruence]. Qed.

Lemma filter_split_length {A : Type} (p q z : A -> bool) (l : list A) :
  (forall a, (if p a then 1 else 0) + (if q a then 1 else 0)
             + (if z a then 1 else 0) = 1)%nat ->
  (List.length (filter p l) + List.length (filter q l)
   + List.length (filter z l) = List.length l)%nat.
Proof.
  intros H. induction l as [|a l IH]; simpl; [reflexivity|].
  specialize (H a). destruct (p a), (q a), (z a); simpl in *; lia.
Qed.

(** C9, as stated, fails: the row of [null_x_raw] survives the latest-run
    filter and is in neither panel. *)
Lemma panel_partition_counterexample :
  ensure_columns null_x_raw
  = Ok [make_sample null_x_raw (null_x_record, (Some 1%Z, None))]
  /\ keep_latest_run_only
       (add_run_index [make_sample null_x_raw (null_x_record, (Some 1%Z, None))])
     = [null_x_row]
  /\ ~ In null_x_row (filter (x_le 100) [null_x_row])
  /\ ~ In null_x_row (filter (x_gt 100) [null_x_row]).
Proof.
  split; [reflexivity|]. split; [reflexivity|].
  split; simpl; intros H; exact H.
Qed.

(** C9, amended.  For every data set and integer threshold, the top panel
    holds the rows with x <= threshold and the bottom panel the rows with
    x > threshold; a row with an x value is in exactly one of the two panels,
    a row whose x value is null is in neither, and the two panels together
    count the rows that have an x value. *)
Theorem panel_partition (df : Frame) (top_n : Z) :
  let df_top := filter (x_le top_n) df in
  let df_bot := filter (x_gt top_n) df in
  (forall r, In r df_top <->
             In r df /\ exists x, x_of r = Some x /\ x <= inject_Z top_n)
  /\ (forall r, In r df_bot <->
                In r df /\ exists x, x_of r = Some x /\ inject_Z top_n < x)
  /\ (forall r, In r df -> x_of r <> None ->
                (In r df_top /\ ~ In r df_bot) \/ (~ In r df_top /\ In r df_bot))
  /\ (forall r, x_of r = None -> ~ In r df_top /\ ~ In r df_bot)
  /\ (List.length df_top + List.length df_bot
      + List.length (filter (fun r => negb (notna (x_of r))) df)
      = List.length df)%nat.
Proof.
  simpl. split; [|split; [|split; [|split]]].
  - intros r. rewrite filter_In, x_le_spec. reflexivity.
  - intros r. rewrite filter_In, x_gt_spec. reflexivity.
  - intros r Hin Hx. rewrite !filter_In, (x_le_gt_exclusive top_n r Hx).
    destruct (x_le top_n r); simpl; [left | right]; split; auto;
      intros [_ H]; discriminate.
  - intros r Hx. rewrite !filter_In. unfold x_le, x_gt. rewrite Hx.
    split; intros [_ H]; discriminate.
  - apply filter_split_length. intros r. unfold x_le, x_gt.
    destruct (x_of r) as [x|]; simpl; [|reflexivity].
    destruct (Qle_bool x (inject_Z top_n)); reflexivity.
Qed.

(** ** The schema normaliser *)

Lemma astype_Int64_whole (cells : list cell) :
  forallb whole_or_unparseable cells = true ->
  astype_Int64 (map to_numeric_coerce cells) = Ok (map channel_of cells).
Proof.
  induction cells as [|c cells IH]; simpl; [reflexivity|].
  rewrite andb_true_iff. intros [Hc Hrest]. rewrite (IH Hrest).
  destruct c as [q| |]; simpl in *; [rewrite Hc|..]; reflexivity.
Qed.

Lemma map_combine3 {A B C D : Type} (f : A -> B) (g : A -> C)
    (h : A * (B * C) -> D) (l : list A) :
  map h (combine l (combine (map f l) (map g l)))
  = map (fun a => h (a, (f a, g a))) l.
Proof. induction l as [|a l IH]; simpl; [|rewrite IH]; reflexivity. Qed.

Lemma ensure_columns_whole (df : RawFrame) :
  whole_channels df = true ->
  ensure_columns df =
  if negb (has_column "SerialNumber" df) then
    Raise (ValueError "Missing SerialNumber column")
  else if negb (has_column "Channel" df) then Raise (KeyError "Channel")
  else if negb (has_column "SampleCount" df) then Raise (KeyError "SampleCount")
  else Ok (map (normalise df) (records df)).
Proof.
  intros Hw. unfold ensure_columns, getitem.
  destruct (has_column "SerialNumber" df); simpl; [|reflexivity].
  destruct (has_column "Channel" df); simpl; [|reflexivity].
  unfold whole_channels in Hw. rewrite forallb_forall in Hw.
  rewrite map_map, <- (map_map raw_Channel to_numeric_coerce).
  rewrite astype_Int64_whole.
  2:{ apply forallb_forall. intros c Hc. apply in_map_iff in Hc.
      destruct Hc as [r [<- Hr]]. apply Hw. assumption. }
  simpl. destruct (has_column "SampleCount" df); simpl; [|reflexivity].
  rewrite !map_map. f_equal.
  apply (map_combine3 (fun r => channel_of (raw_Channel r))
           (fun r => to_numeric_coerce (raw_SampleCount r)) (make_sample df)).
Qed.


(** A channel value that is a number but not a whole one is not turned into
    a null: the cast raises. *)
Lemma ensure_columns_fractional_channel :
  ensure_columns fractional_channel_raw
  = Raise (TypeError "cannot safely cast non-equivalent float64 to int64").
Proof. reflexivity. Qed.



(** C2 at the restart example, whose rows all carry a run index. *)
Lemma keep_latest_run_only_exact_witness :
  has_run_indices (add_run_index restart_example) = true
  /\ forall r k,
       In r (add_run_index restart_example) -> row_key r = Some k ->
       exists r', In r' (keep_latest_run_only (add_run_index restart_example))
                  /\ row_key r' = Some k.
Proof.
  split; [reflexivity|].
  exact (proj2 (proj2 (keep_latest_run_only_exact
                         (add_run_index restart_example) eq_refl))).
Defined.

(** ** The upload callback and the table *)

Lemma app_state_eta (st : AppState) :
  {| data_store := data_store st;
     compare_options := compare_options st;
     metric_dropdown := metric_dropdown st;
     compare_serials_value := compare_serials_value st;
     top_n_value := top_n_value st;
     plot_figure := plot_figure st;
     run_label := run_label st;
     compare_warning := compare_warning st;
     stats_table_data := stats_table_data st;
     disk := disk st |} = st.
Proof. destruct st. reflexivity. Qed.

(** C7.  When the uploaded payload decodes to a table without the
    device-identifier column, [load_csv] raises the validation error and
    writes nothing to the disk, and the application state after the upload
    is the state before it: data file, stored data set and selector options
    keep their values. *)
Theorem load_csv_rejects_without_change
    (parse_uploaded_csv : string -> result RawFrame)
    (contents : string) (raw : RawFrame) (st : AppState) :
  parse_uploaded_csv contents = Ok raw ->
  has_column "SerialNumber" raw = false ->
  (forall fs, load_csv parse_uploaded_csv contents fs
              = (Raise (ValueError "Missing SerialNumber column"), fs))
  /\ fire_load_csv parse_uploaded_csv contents st = st
  /\ step parse_uploaded_csv st (Upload contents) = st.
Proof.
  intros Hparse Hcol.
  assert (Hload : forall fs, load_csv parse_uploaded_csv contents fs
                  = (Raise (ValueError "Missing SerialNumber column"), fs)).
  { intros fs. unfold load_csv. rewrite Hparse. simpl.
    unfold ensure_columns. rewrite Hcol. reflexivity. }
  assert (Hfire : fire_load_csv parse_uploaded_csv contents st = st).
  { unfold fire_load_csv. rewrite Hload. apply app_state_eta. }
  split; [exact Hload|]. split; exact Hfire.
Qed.

(** C7 at an upload of [no_serial_raw] onto [loaded_state]. *)
Lemma load_csv_rejects_without_change_witness :
  step (fun _ => Ok no_serial_raw) loaded_state (Upload "data:text/csv;base64,")
  = loaded_state.
Proof.
  exact (proj2 (proj2 (load_csv_rejects_without_change
                         (fun _ => Ok no_serial_raw) "data:text/csv;base64,"
                         no_serial_raw loaded_state eq_refl eq_refl))).
Defined.

Lemma fire_update_plot_table (st : AppState) :
  stats_table_data (fire_update_plot st) = stats_table_data st.
Proof.
  unfold fire_update_plot.
  destruct (update_plot _ _ _ _) as [[fig lbl] warning]. reflexivity.
Qed.

Lemma step_table (parse_uploaded_csv : string -> result RawFrame)
    (st : AppState) (e : event) :
  stats_table_data (step parse_uploaded_csv st e) = stats_table_data st.
Proof.
  destruct e as [contents|m|v|n]; unfold step;
    try (rewrite fire_update_plot_table; reflexivity).
  unfold fire_load_csv.
  destruct (load_csv parse_uploaded_csv contents (disk st)) as [[[d o]|e] fs];
    [rewrite fire_update_plot_table|]; reflexivity.
Qed.

(** No callback has the table's [data] among its outputs. *)
Lemma stats_table_never_filled (parse_uploaded_csv : string -> result RawFrame)
    (events : list event) :
  stats_table_data (run parse_uploaded_csv events) = [].
Proof.
  unfold run. assert (H : stats_table_data initial_state = []) by reflexivity.
  revert H. generalize initial_state.
  induction events as [|e events IH]; intros st H; simpl; [assumption|].
  apply IH. rewrite step_table. assumption.
Qed.

(** C3.  After the upload of [observed_raw], the stored data set holds two
    RAW observations of device A, channel 1, and the table has no row:
    whatever is uploaded or selected, the table's data stay empty. *)
Theorem stats_table_empty_after_upload :
  (forall parse_uploaded_csv events,
      stats_table_data (run parse_uploaded_csv events) = [])
  /\ (let st := run (fun _ => Ok observed_raw) [Upload "data:text/csv;base64,"] in
      option_map (map (fun r => (serial_of r, Channel (sample r),
                                 metric_of RAW r)))
                 (option_map keep_latest_run_only (data_store st))
      = Some [("A", Some 1%Z, Some (inject_Z 10));
              ("A", Some 1%Z, Some (inject_Z 12))]
      /\ stats_table_data st = []).
Proof.
  split; [exact stats_table_never_filled|].
  split; reflexivity.
Qed.

(** ** The traces of a figure *)





Lemma update_plot_no_valid (df : Frame) (metric : Metric)
    (compare_serials : option (list string)) (top_n : Z)
    (lbl warning : string) :
  selection_of df compare_serials = NoValid lbl warning ->
  update_plot (Some df) metric compare_serials top_n = (px_line, lbl, warning).
Proof. unfold selection_of, update_plot. intros ->. reflexivity. Qed.

(** *** The standard deviation is defined from two observations on *)

Lemma mean_defined (col : list (option Q)) :
  mean col = None <-> dropna col = [].
Proof.
  unfold mean. destruct (dropna col); split; congruence.
Qed.


Lemma Some_inj {A : Type} (a b : A) : Some a = Some b -> a = b.
Proof. intros H. injection H. auto. Qed.












(** One device with a single observed point: the raw series and the mean
    line, and no sigma line. *)
Example single_point_overlay :
  let df := add_run_index
              [normalise observed_raw (observed_record 1 10)] in
  map (fun t => (t_name t, t_dash t, t_y t))
      (traces (figure_of (update_plot (Some df) RAW None 100)))
  = [(Some "A", None, [Val (Some (inject_Z 10))]);
     (Some "A (mean)", Some "dash",
      [Val (Some (inject_Z 10)); Val (Some (inject_Z 10))])].
Proof. reflexivity. Qed.

(** ** The device selection *)

Lemma contains_In (s : string) (l : list string) :
  contains s l = true <-> In s l.
Proof.
  unfold contains. rewrite existsb_exists. split.
  - intros [x [Hin Heq]]. apply String.eqb_eq in Heq. subst. assumption.
  - intros H. exists s. split; [assumption | apply String.eqb_refl].
Qed.


Lemma unique_aux_In (l : list string) :
  forall seen s, In s (unique_aux seen l) <-> In s l /\ ~ In s seen.
Proof.
  induction l as [|a l IH]; intros seen s; simpl; [tauto|].
  destruct (contains a seen) eqn:E.
  - apply contains_In in E. rewrite IH. split.
    + intros [H1 H2]. auto.
    + intros [[-> | H1] H2]; [contradiction | auto].
  - assert (Ha : ~ In a seen).
    { intros H. apply contains_In in H. congruence. }
    simpl. rewrite IH. simpl. split.
    + intros [-> | [H1 H2]]; [auto | tauto].
    + intros [[-> | H1] H2]; [auto|].
      destruct (String.eqb_spec a s) as [-> | Hne]; [auto | right; tauto].
Qed.

Lemma unique_aux_NoDup (l : list string) :
  forall seen, NoDup (unique_aux seen l).
Proof.
  induction l as [|a l IH]; intros seen; simpl; [constructor|].
  destruct (contains a seen); [apply IH|].
  constructor; [|apply IH].
  rewrite unique_aux_In. simpl. tauto.
Qed.

Lemma unique_In (l : list string) (s : string) : In s (unique l) <-> In s l.
Proof. unfold unique. rewrite unique_aux_In. simpl. tauto. Qed.

Lemma sorted_In (l : list string) (s : string) : In s (sorted l) <-> In s l.
Proof.
  unfold sorted. pose proof (StringSort.Permuted_sort l) as P. split.
  - apply Permutation_in. symmetry. assumption.
  - apply Permutation_in. assumption.
Qed.

Lemma all_serials_spec (kept : Frame) :
  let all_serials := sorted (unique (map serial_of kept)) in
  Sorted (fun a b => String.leb a b = true) all_serials
  /\ NoDup all_serials
  /\ forall s, In s all_serials <-> present kept s.
Proof.
  simpl. split; [|split].
  - apply StringSort.Sorted_sort.
  - apply (Permutation_NoDup (StringSort.Permuted_sort _)).
    apply unique_aux_NoDup.
  - intros s. rewrite sorted_In, unique_In, in_map_iff. unfold present.
    split; intros [r [H1 H2]]; exists r; auto.
Qed.

(** *** Raw series and the devices they belong to *)






Lemma select_serials_some (all_serials req : list string) :
  req <> [] ->
  select_serials all_serials (Some req) =
  match filter (fun s => contains s all_serials) req with
  | [] =>
      NoValid "No valid serials selected"
        (no_data_warning (filter (fun s => negb (contains s all_serials)) req))
  | valid =>
      Selected valid
        ("Comparing " ++ str_nat (List.length valid) ++ " serial(s)")%string
        match filter (fun s => negb (contains s all_serials)) req with
        | [] => ""
        | missing => no_data_warning missing
        end
  end.
Proof.
  intros Hreq. destruct req as [|c cs]; [congruence|].
  unfold select_serials.
  destruct (filter (fun s => contains s all_serials) (c :: cs)); [reflexivity|].
  destruct (filter (fun s => negb (contains s all_serials)) (c :: cs));
    reflexivity.
Qed.


(** Device A is in the data set and device B is not: asking for A and B
    draws A alone and warns about B; asking for B alone gives the empty
    plot. *)
Example compare_present_and_absent :
  let out := update_plot (Some observed_frame) RAW (Some ["A"; "B"]) 100 in
  map t_name (filter (fun t => negb (notna (t_dash t))) (traces (figure_of out)))
  = [Some "A"]
  /\ snd out = "⚠️ No data for: B"
  /\ update_plot (Some observed_frame) RAW (Some ["B"]) 100
     = (px_line, "No valid serials selected", "⚠️ No data for: B").
Proof. repeat split. Qed.

(* ================================================================== *)
(** * Further properties of the code *)
(* ================================================================== *)

(** ** Run segmentation and the latest-run filter together *)

Lemma add_run_index_length (df : list Sample) :
  List.length (add_run_index df) = List.length df.
Proof.
  rewrite <- (length_map sample), add_run_index_samples.
  symmetry. apply Permutation_length. apply SampleSort.Permuted_sort.
Qed.

(** X1.  [add_run_index] neither loses nor invents a row: its rows are a
    permutation of the input rows, in ascending order of
    (SerialID, Channel, X) with missing values last. *)
Theorem add_run_index_sorted_permutation (df : list Sample) :
  Permutation df (map sample (add_run_index df))
  /\ StronglySorted sample_le (map sample (add_run_index df))
  /\ List.length (add_run_index df) = List.length df.
Proof.
  split; [apply add_run_index_permutation|].
  split; [apply add_run_index_sorted | apply add_run_index_length].
Qed.

(** X2.  Whatever the input, [add_run_index] gives run index 0 to every row
    that has a channel and a null run index to every row that has none: no
    input yields a second run. *)
Theorem run_index_never_exceeds_zero (df : list Sample) :
  Forall (fun r => RunIndex r = match Channel (sample r) with
                                | Some _ => Some 0%Z
                                | None => None
                                end)
         (add_run_index df).
Proof.
  apply Forall_forall. intros r Hr. apply add_run_index_single_run with df.
  assumption.
Qed.

Lemma is_latest_after_add_run_index (df : list Sample) (r : Row) :
  In r (add_run_index df) ->
  is_latest (group_max [] (add_run_index df)) r = has_channel r.
Proof.
  intros Hr. destruct (has_channel r) eqn:Hc.
  - apply is_latest_spec.
    pose proof (add_run_index_single_run df r Hr) as Hrun.
    unfold has_channel in Hc.
    destruct (Channel (sample r)) as [c|] eqn:Ec; [|discriminate].
    exists (SerialID (sample r), c), 0%Z.
    split; [unfold row_key, group_key; rewrite Ec; reflexivity|].
    split; [assumption|]. split.
    + exists r. split; [assumption|]. split; [|assumption].
      unfold row_key, group_key. rewrite Ec. reflexivity.
    + intros v [r' [Hr' [Hk' Hv']]].
      pose proof (add_run_index_single_run df r' Hr') as Hrun'.
      unfold row_key, group_key in Hk'.
      destruct (Channel (sample r')); [|discriminate].
      rewrite Hrun' in Hv'. injection Hv' as <-. lia.
  - destruct (is_latest (group_max [] (add_run_index df)) r) eqn:E;
      [|reflexivity].
    apply is_latest_has_channel in E. congruence.
Qed.

Lemma keep_after_add_run_index (df : list Sample) :
  keep_latest_run_only (add_run_index df)
  = filter has_channel (add_run_index df).
Proof.
  rewrite keep_latest_run_only_filter. apply filter_ext_in.
  apply is_latest_after_add_run_index.
Qed.

(** X3.  On the output of [add_run_index] the latest-run filter removes the
    rows without a channel and nothing else: every row that has a channel
    is kept, whatever its position in the sequence of samples. *)
Theorem latest_run_keeps_every_channel_row (df : list Sample) :
  keep_latest_run_only (add_run_index df)
  = filter has_channel (add_run_index df)
  /\ Permutation
       (map sample (keep_latest_run_only (add_run_index df)))
       (filter (fun s => notna (Channel s)) df).
Proof.
  split; [apply keep_after_add_run_index|].
  rewrite keep_after_add_run_index.
  assert (Hmap : forall l : Frame,
             map sample (filter has_channel l)
             = filter (fun s => notna (Channel s)) (map sample l)).
  { induction l as [|r l IH]; simpl; [reflexivity|].
    unfold has_channel at 1. destruct (notna (Channel (sample r))); simpl;
      rewrite IH; reflexivity. }
  rewrite Hmap.
  assert (Hperm : forall (p : Sample -> bool) (l l' : list Sample),
             Permutation l l' -> Permutation (filter p l) (filter p l')).
  { intros p l l' H. induction H; simpl.
    - constructor.
    - destruct (p x); [constructor|]; assumption.
    - destruct (p x), (p y); try constructor; try apply Permutation_refl.
    - eapply Permutation_trans; eassumption. }
  apply Hperm. symmetry. apply add_run_index_permutation.
Qed.


Lemma filter_length_le {A : Type} (p : A -> bool) (l : list A) :
  (List.length (filter p l) <= List.length l)%nat.
Proof.
  induction l as [|a l IH]; simpl; [lia|]. destruct (p a); simpl; lia.
Qed.

(** X4.  In the output of [keep_latest_run_only], for any input: every row
    has a channel and a run index, two rows of one (device, channel) group
    carry the same run index, and there are no more rows than in the
    input. *)
Theorem keep_latest_run_only_one_run_per_group (df : Frame) :
  Forall (fun r => Channel (sample r) <> None /\ RunIndex r <> None)
         (keep_latest_run_only df)
  /\ (forall r r', In r (keep_latest_run_only df) ->
                   In r' (keep_latest_run_only df) ->
                   row_key r = row_key r' -> RunIndex r = RunIndex r')
  /\ (List.length (keep_latest_run_only df) <= List.length df)%nat.
Proof.
  split; [|split].
  - apply Forall_forall. intros r Hr. apply keep_latest_run_only_In in Hr.
    destruct Hr as [_ [k [m [Hk [Hv _]]]]]. split; [|congruence].
    intros Hc. unfold row_key in Hk. apply group_key_None in Hc. congruence.
  - intros r r' Hr Hr' Hkey.
    apply keep_latest_run_only_In in Hr, Hr'.
    destruct Hr as [_ [k [m [Hk [Hv [Hin Hub]]]]]].
    destruct Hr' as [_ [k' [m' [Hk' [Hv' [Hin' Hub']]]]]].
    assert (k = k') by congruence. subst k'.
    rewrite Hv, Hv'. f_equal.
    specialize (Hub _ Hin'). specialize (Hub' _ Hin). lia.
  - rewrite keep_latest_run_only_filter. apply filter_length_le.
Qed.


(** ** Every outcome of the schema normaliser *)

Lemma astype_Int64_outcome (cells : list cell) :
  astype_Int64 (map to_numeric_coerce cells)
  = if forallb whole_or_unparseable cells then Ok (map channel_of cells)
    else Raise cast_error.
Proof.
  induction cells as [|c cells IH]; simpl; [reflexivity|].
  rewrite IH. destruct c as [q| |]; simpl.
  - destruct (is_integral q); simpl; [|reflexivity].
    destruct (forallb whole_or_unparseable cells); reflexivity.
  - destruct (forallb whole_or_unparseable cells); reflexivity.
  - destruct (forallb whole_or_unparseable cells); reflexivity.
Qed.

Lemma whole_channels_cells (df : RawFrame) :
  forallb whole_or_unparseable (map raw_Channel (records df))
  = whole_channels df.
Proof.
  unfold whole_channels. induction (records df) as [|r l IH]; simpl;
    [|rewrite IH]; reflexivity.
Qed.

Lemma ensure_columns_outcome (df : RawFrame) :
  ensure_columns df =
  if negb (has_column "SerialNumber" df) then
    Raise (ValueError "Missing SerialNumber column")
  else if negb (has_column "Channel" df) then Raise (KeyError "Channel")
  else if negb (whole_channels df) then Raise cast_error
  else if negb (has_column "SampleCount" df) then Raise (KeyError "SampleCount")
  else Ok (map (normalise df) (records df)).
Proof.
  destruct (whole_channels df) eqn:Hw.
  - rewrite (ensure_columns_whole df Hw). reflexivity.
  - unfold ensure_columns, getitem.
    destruct (has_column "SerialNumber" df); simpl; [|reflexivity].
    destruct (has_column "Channel" df); simpl; [|reflexivity].
    rewrite map_map, <- (map_map raw_Channel to_numeric_coerce).
    rewrite astype_Int64_outcome, whole_channels_cells, Hw. reflexivity.
Qed.





(** ** The device identifier is trimmed *)

Lemma lstrip_head (s : string) : head_is_space (lstrip s) = false.
Proof.
  induction s as [|c s IH]; simpl; [reflexivity|].
  destruct (is_space c) eqn:E; [assumption | simpl; assumption].
Qed.

Lemma rstrip_last (s : string) : last_is_space (rstrip s) = false.
Proof.
  induction s as [|c s IH]; simpl; [reflexivity|].
  destruct (rstrip s) as [|c' t] eqn:E.
  - destruct (is_space c) eqn:Ec; simpl; [reflexivity | assumption].
  - exact IH.
Qed.

Lemma rstrip_head (s : string) :
  head_is_space s = false -> head_is_space (rstrip s) = false.
Proof.
  destruct s as [|c s]; simpl; [reflexivity|]. intros Hc.
  destruct (rstrip s); [rewrite Hc|]; simpl; auto.
Qed.

Lemma lstrip_fixed (s : string) : head_is_space s = false -> lstrip s = s.
Proof. destruct s as [|c s]; simpl; [reflexivity|]. intros ->. reflexivity. Qed.

Lemma rstrip_fixed (s : string) : last_is_space s = false -> rstrip s = s.
Proof.
  induction s as [|c s IH]; [reflexivity|].
  destruct s as [|c' s'].
  - simpl. intros ->. reflexivity.
  - intros H. change (last_is_space (String c' s') = false) in H.
    specialize (IH H). simpl in *. rewrite IH. reflexivity.
Qed.

Lemma strip_trimmed (s : string) :
  head_is_space (strip s) = false
  /\ last_is_space (strip s) = false
  /\ strip (strip s) = strip s.
Proof.
  assert (Hh : head_is_space (strip s) = false)
    by (apply rstrip_head, lstrip_head).
  assert (Hl : last_is_space (strip s) = false) by apply rstrip_last.
  split; [assumption|]. split; [assumption|].
  unfold strip at 1. rewrite (lstrip_fixed _ Hh). apply rstrip_fixed, Hl.
Qed.

(** X8.  When [ensure_columns] succeeds it returns as many samples as the
    table has records; the SerialID of each sample neither starts nor ends
    with a blank, tab or line break, so trimming it again changes nothing,
    and its X is its SampleCount. *)
Theorem ensure_columns_trims (df : RawFrame) (samples : list Sample) :
  ensure_columns df = Ok samples ->
  List.length samples = List.length (records df)
  /\ Forall (fun s => head_is_space (SerialID s) = false
                      /\ last_is_space (SerialID s) = false
                      /\ strip (SerialID s) = SerialID s
                      /\ X s = SampleCount s) samples.
Proof.
  rewrite ensure_columns_outcome. intros H.
  destruct (has_column "SerialNumber" df); simpl in H; [|discriminate].
  destruct (has_column "Channel" df); simpl in H; [|discriminate].
  destruct (whole_channels df); simpl in H; [|discriminate].
  destruct (has_column "SampleCount" df); simpl in H; [|discriminate].
  injection H as <-. split; [apply length_map|].
  apply Forall_forall. intros s Hs. apply in_map_iff in Hs.
  destruct Hs as [r [<- _]]. simpl.
  destruct (strip_trimmed (raw_SerialNumber r)) as [Hh [Hl Hid]]. auto.
Qed.

(** A table whose device identifier is written with blanks around it. *)
Lemma ensure_columns_trims_witness :
  ensure_columns
    {| columns := ["SerialNumber"; "Channel"; "SampleCount"];
       records := [ {| raw_SerialNumber := "  A7 "; raw_Channel := Num 1;
                       raw_SampleCount := Num 5; raw_Date := "";
                       raw_Time := ""; raw_FileMTime := Blank;
                       raw_metric := no_metrics |} ] |}
  = Ok [ {| SerialNumber := "  A7 "; SerialID := "A7"; Channel := Some 1%Z;
            SampleCount := Some 5; X := Some 5; Timestamp := NaT;
            value := no_metrics |} ]
  /\ List.length
       [ {| SerialNumber := "  A7 "; SerialID := "A7"; Channel := Some 1%Z;
            SampleCount := Some 5; X := Some 5; Timestamp := NaT;
            value := no_metrics |} ] = 1%nat.
Proof.
  split; [reflexivity|].
  exact (proj1 (ensure_columns_trims
                  {| columns := ["SerialNumber"; "Channel"; "SampleCount"];
                     records := [ {| raw_SerialNumber := "  A7 ";
                                     raw_Channel := Num 1;
                                     raw_SampleCount := Num 5; raw_Date := "";
                                     raw_Time := ""; raw_FileMTime := Blank;
                                     raw_metric := no_metrics |} ] |}
                  _ eq_refl)).
Defined.

(** ** Dictionaries *)

Lemma dict_get_set_eq {V : Type} (k : string) (v : V) (d : list (string * V)) :
  dict_get k (dict_set k v d) = Some v.
Proof.
  induction d as [|[k' v'] d IH]; simpl.
  - rewrite String.eqb_refl. reflexivity.
  - destruct (String.eqb k k') eqn:E; simpl; rewrite ?String.eqb_refl, ?E;
      [reflexivity | assumption].
Qed.

Lemma dict_get_set_ne {V : Type} (k k' : string) (v : V)
    (d : list (string * V)) :
  k' <> k -> dict_get k' (dict_set k v d) = dict_get k' d.
Proof.
  intros Hne. apply String.eqb_neq in Hne.
  induction d as [|[k0 v0] d IH]; simpl.
  - rewrite Hne. reflexivity.
  - destruct (String.eqb k k0) eqn:E; simpl.
    + apply String.eqb_eq in E. subst k0. rewrite Hne. reflexivity.
    + destruct (String.eqb k' k0); [reflexivity | assumption].
Qed.

(** ** Uploads, one at a time *)

Lemma load_csv_uploaded (parse_uploaded_csv : string -> result RawFrame)
    (contents : string) (fs : FileSystem) :
  load_csv parse_uploaded_csv contents fs
  = match uploaded parse_uploaded_csv contents with
    | Ok df => (Ok (df, options_of df), to_csv df DATA_CSV fs)
    | Raise e => (Raise e, fs)
    end.
Proof. reflexivity. Qed.

Lemma fire_update_plot_shown (st : AppState) :
  shown (fire_update_plot st)
  = update_plot (data_store st) (metric_dropdown st)
                (compare_serials_value st) (top_n_value st).
Proof.
  unfold fire_update_plot, shown.
  destruct (update_plot _ _ _ _) as [[fig lbl] warning]. reflexivity.
Qed.

Lemma fire_update_plot_inputs (st : AppState) :
  data_store (fire_update_plot st) = data_store st
  /\ compare_options (fire_update_plot st) = compare_options st
  /\ metric_dropdown (fire_update_plot st) = metric_dropdown st
  /\ compare_serials_value (fire_update_plot st) = compare_serials_value st
  /\ top_n_value (fire_update_plot st) = top_n_value st
  /\ disk (fire_update_plot st) = disk st.
Proof.
  unfold fire_update_plot.
  destruct (update_plot _ _ _ _) as [[fig lbl] warning]. simpl. auto 10.
Qed.

Lemma step_failed_upload (parse_uploaded_csv : string -> result RawFrame)
    (contents : string) (st : AppState) (e : error) :
  uploaded parse_uploaded_csv contents = Raise e ->
  step parse_uploaded_csv st (Upload contents) = st.
Proof.
  intros H. simpl. unfold fire_load_csv. rewrite load_csv_uploaded, H.
  apply app_state_eta.
Qed.

(** X9.  An upload that fails, for whatever reason (the payload does not
    decode, a column is missing, a channel does not cast), changes nothing:
    [load_csv] returns the exception with the disk as it was, and the state
    after the upload is the state before it. *)
Theorem failed_upload_changes_nothing
    (parse_uploaded_csv : string -> result RawFrame)
    (contents : string) (st : AppState) (e : error) :
  uploaded parse_uploaded_csv contents = Raise e ->
  (forall fs, load_csv parse_uploaded_csv contents fs = (Raise e, fs))
  /\ step parse_uploaded_csv st (Upload contents) = st.
Proof.
  intros H. split.
  - intros fs. rewrite load_csv_uploaded, H. reflexivity.
  - apply step_failed_upload with e. assumption.
Qed.

(** X9 at a payload that decodes to a table with a fractional channel. *)
Lemma failed_upload_changes_nothing_witness :
  step (fun _ => Ok fractional_channel_raw) loaded_state (Upload "x,eA==")
  = loaded_state.
Proof.
  exact (proj2 (failed_upload_changes_nothing
                  (fun _ => Ok fractional_channel_raw) "x,eA=="
                  loaded_state cast_error eq_refl)).
Defined.

Lemma step_stored_upload (parse_uploaded_csv : string -> result RawFrame)
    (contents : string) (st : AppState) (df : Frame) :
  uploaded parse_uploaded_csv contents = Ok df ->
  step parse_uploaded_csv st (Upload contents)
  = fire_update_plot
      {| data_store := Some df;
         compare_options := options_of df;
         metric_dropdown := metric_dropdown st;
         compare_serials_value := compare_serials_value st;
         top_n_value := top_n_value st;
         plot_figure := plot_figure st;
         run_label := run_label st;
         compare_warning := compare_warning st;
         stats_table_data := stats_table_data st;
         disk := to_csv df DATA_CSV (disk st) |}.
Proof.
  intros H. simpl. unfold fire_load_csv. rewrite load_csv_uploaded, H.
  reflexivity.
Qed.



(** ** What holds after every sequence of events *)

Lemma step_data_store (parse_uploaded_csv : string -> result RawFrame)
    (st : AppState) (e : event) :
  data_store (step parse_uploaded_csv st e)
  = match e with
    | Upload contents =>
        match uploaded parse_uploaded_csv contents with
        | Ok df => Some df
        | Raise _ => data_store st
        end
    | _ => data_store st
    end.
Proof.
  destruct e as [contents|m|v|n];
    try (unfold step;
         match goal with |- context [fire_update_plot ?s] =>
           destruct (fire_update_plot_inputs s) as [H _]; rewrite H
         end; reflexivity).
  destruct (uploaded parse_uploaded_csv contents) as [df|err] eqn:E.
  - rewrite (step_stored_upload _ _ _ _ E).
    match goal with |- context [fire_update_plot ?s] =>
      destruct (fire_update_plot_inputs s) as [H _]; rewrite H
    end. reflexivity.
  - rewrite (step_failed_upload _ _ _ _ E). reflexivity.
Qed.

Lemma run_data_store (parse_uploaded_csv : string -> result RawFrame)
    (events : list event) :
  forall st,
    data_store (fold_left (step parse_uploaded_csv) events st)
    = fold_left
        (fun acc e =>
           match e with
           | Upload contents =>
               match uploaded parse_uploaded_csv contents with
               | Ok df => Some df
               | Raise _ => acc
               end
           | _ => acc
           end) events (data_store st).
Proof.
  induction events as [|e events IH]; intros st; simpl; [reflexivity|].
  rewrite IH, step_data_store. reflexivity.
Qed.

Lemma fire_update_plot_in_step (st : AppState) :
  dict_get DATA_CSV (disk st) = data_store st ->
  compare_options st = options_for (data_store st) ->
  in_step (fire_update_plot st).
Proof.
  intros Hdisk Hopt. unfold in_step.
  destruct (fire_update_plot_inputs st) as [H1 [H2 [H3 [H4 [H5 H6]]]]].
  rewrite fire_update_plot_shown, H1, H2, H3, H4, H5, H6. auto.
Qed.

Lemma step_in_step (parse_uploaded_csv : string -> result RawFrame)
    (st : AppState) (e : event) :
  in_step st -> in_step (step parse_uploaded_csv st e).
Proof.
  intros [Hshown [Hdisk Hopt]].
  destruct e as [contents|m|v|n];
    try (unfold step; apply fire_update_plot_in_step; assumption).
  destruct (uploaded parse_uploaded_csv contents) as [df|err] eqn:E.
  - rewrite (step_stored_upload _ _ _ _ E).
    apply fire_update_plot_in_step; simpl; [|reflexivity].
    apply dict_get_set_eq.
  - rewrite (step_failed_upload _ _ _ _ E). repeat split; assumption.
Qed.

Lemma run_in_step (parse_uploaded_csv : string -> result RawFrame)
    (events : list event) :
  in_step (run parse_uploaded_csv events).
Proof.
  unfold run.
  assert (H : in_step initial_state) by (repeat split).
  revert H. generalize initial_state.
  induction events as [|e events IH]; intros st H; simpl; [assumption|].
  apply IH, step_in_step, H.
Qed.



(** X13.  The stored table is the table of the last upload that went
    through: uploads that fail and changes of metric, selection or threshold
    do not touch it; and while no upload has gone through, the figure is the
    empty one and label and warning are empty. *)
Theorem store_is_last_upload
    (parse_uploaded_csv : string -> result RawFrame) (events : list event) :
  data_store (run parse_uploaded_csv events)
  = last_stored parse_uploaded_csv events
  /\ (last_stored parse_uploaded_csv events = None ->
      shown (run parse_uploaded_csv events) = (px_line, "", "")).
Proof.
  assert (H : data_store (run parse_uploaded_csv events)
              = last_stored parse_uploaded_csv events).
  { unfold run, last_stored. rewrite run_data_store. reflexivity. }
  split; [exact H|]. intros Hnone.
  destruct (run_in_step parse_uploaded_csv events) as [Hshown _].
  rewrite Hshown, H, Hnone. reflexivity.
Qed.

(** ** The devices offered and the devices plotted *)

Lemma options_of_values (df : Frame) :
  map option_value (options_of df) = sorted (unique (map serial_of df)).
Proof.
  unfold options_of. rewrite map_map. simpl. apply map_id.
Qed.

Lemma add_run_index_In_sample (df : list Sample) (x : Sample) :
  In x df <-> exists r, In r (add_run_index df) /\ sample r = x.
Proof.
  split.
  - intros Hx.
    apply (Permutation_in _ (add_run_index_permutation df)) in Hx.
    apply in_map_iff in Hx. destruct Hx as [r [Hs Hr]]. eauto.
  - intros [r [Hr <-]].
    apply (Permutation_in _ (Permutation_sym (add_run_index_permutation df))).
    apply in_map. assumption.
Qed.

(** X14.  After an upload, the selector offers every device that has a row
    in the table, while the plot builder knows only the devices that have a
    row with a channel: a device all of whose rows lack a channel is offered
    and, once selected, reported as having no data. *)
Theorem offered_and_plotted_devices (samples : list Sample) :
  let df := add_run_index samples in
  (forall s, In s (map option_value (options_of df)) <->
             exists x, In x samples /\ SerialID x = s)
  /\ (forall s,
        In s (sorted (unique (map serial_of (keep_latest_run_only df)))) <->
        exists x, In x samples /\ SerialID x = s /\ Channel x <> None)
  /\ (forall s,
        In s (map option_value (options_of df)) ->
        (forall x, In x samples -> SerialID x = s -> Channel x = None) ->
        forall metric top_n,
          update_plot (Some df) metric (Some [s]) top_n
          = (px_line, "No valid serials selected",
             ("⚠️ No data for: " ++ s)%string)).
Proof.
  intros df.
  assert (Hoff : forall s, In s (map option_value (options_of df)) <->
                           exists x, In x samples /\ SerialID x = s).
  { intros s. rewrite options_of_values.
    destruct (all_serials_spec df) as [_ [_ Hmem]]. rewrite Hmem.
    unfold present, df. split.
    - intros [r [Hr Hs]]. exists (sample r). split; [|assumption].
      apply add_run_index_In_sample. eauto.
    - intros [x [Hx Hs]]. apply add_run_index_In_sample in Hx.
      destruct Hx as [r [Hr <-]]. eauto. }
  assert (Hplot : forall s,
             In s (sorted (unique (map serial_of (keep_latest_run_only df)))) <->
             exists x, In x samples /\ SerialID x = s /\ Channel x <> None).
  { intros s.
    destruct (all_serials_spec (keep_latest_run_only df)) as [_ [_ Hmem]].
    rewrite Hmem. unfold present, df. rewrite keep_after_add_run_index.
    split.
    - intros [r [Hr Hs]]. apply filter_In in Hr. destruct Hr as [Hr Hc].
      exists (sample r). split; [apply add_run_index_In_sample; eauto|].
      split; [assumption|]. unfold has_channel in Hc.
      destruct (Channel (sample r)); [discriminate | discriminate].
    - intros [x [Hx [Hs Hc]]]. apply add_run_index_In_sample in Hx.
      destruct Hx as [r [Hr <-]]. exists r. split; [|assumption].
      apply filter_In. split; [assumption|]. unfold has_channel.
      destruct (Channel (sample r)); [reflexivity | congruence]. }
  split; [exact Hoff|]. split; [exact Hplot|].
  intros s _ Hnone metric top_n.
  apply update_plot_no_valid. unfold selection_of.
  rewrite select_serials_some by discriminate.
  assert (Hnot : contains s (sorted (unique (map serial_of
                                (keep_latest_run_only df)))) = false).
  { destruct (contains s _) eqn:E; [|reflexivity].
    apply contains_In, Hplot in E. destruct E as [x [Hx [Hs Hc]]].
    exfalso. apply Hc. apply Hnone; assumption. }
  simpl. rewrite Hnot. simpl. reflexivity.
Qed.

(** ** Where the traces of a figure sit *)

Lemma serial_traces_layout (metric : Metric) (cm : list (string * string))
    (row_df : Frame) (row_idx : nat) (s : string) (t : Trace) :
  In t (serial_traces metric cm row_df row_idx s) ->
  t_row t = row_idx /\ t_col t = 1%nat /\ t_color t = color_of cm s
  /\ t_showlegend t = ((row_idx =? 1)%nat && negb (is_sigma t))%bool.
Proof.
  unfold serial_traces, sigma_traces.
  destruct (group_of row_df s) as [|r g]; [intros []|].
  intros [<- | [<- | H]]; simpl.
  - rewrite andb_true_r. auto.
  - rewrite andb_true_r. auto.
  - destruct (std 1 _); simpl in H; [|destruct H].
    destruct H as [<- | [<- | []]]; simpl; rewrite andb_false_r; auto.
Qed.



(** *** Abscissae *)












(** ** Colours *)

Lemma color_map_fold (serials : list string) :
  color_map serials = fold_left set_color (enumerate serials) [].
Proof. reflexivity. Qed.

Lemma fold_set_color_other (l : list string) :
  forall n d s,
    ~ In s l ->
    dict_get s (fold_left set_color (enumerate_from n l) d) = dict_get s d.
Proof.
  induction l as [|a l IH]; intros n d s Hs; simpl; [reflexivity|].
  rewrite IH by (intros H; apply Hs; right; assumption).
  unfold set_color. simpl. apply dict_get_set_ne.
  intros ->. apply Hs. left. reflexivity.
Qed.

Lemma fold_set_color_at (l : list string) :
  forall n d i s,
    NoDup l -> nth_error l i = Some s ->
    dict_get s (fold_left set_color (enumerate_from n l) d)
    = Some (pool_color (n + i)).
Proof.
  induction l as [|a l IH]; intros n d i s Hnd Hi.
  - destruct i; discriminate.
  - inversion Hnd as [|a' l' Ha Hl]. subst. destruct i as [|j]; simpl in *.
    + apply Some_inj in Hi. subst a.
      rewrite fold_set_color_other by assumption.
      unfold set_color. simpl. rewrite Nat.add_0_r. apply dict_get_set_eq.
    + rewrite (IH (S n) _ j s Hl Hi). rewrite Nat.add_succ_r. reflexivity.
Qed.

(** X17.  When the selected serials are distinct, the device at position
    [i] of the list gets the palette colour number [i mod 10], and every
    trace drawn for it, in either panel, has that colour. *)
Theorem colour_by_position (serials : list string) (i : nat) (s : string) :
  NoDup serials ->
  nth_error serials i = Some s ->
  color_of (color_map serials) s = nth (i mod 10) COLOR_POOL ""
  /\ forall metric row_df row_idx t,
       In t (serial_traces metric (color_map serials) row_df row_idx s) ->
       t_color t = nth (i mod 10) COLOR_POOL "".
Proof.
  intros Hnd Hi.
  assert (Hc : color_of (color_map serials) s = nth (i mod 10) COLOR_POOL "").
  { unfold color_of. rewrite color_map_fold. unfold enumerate.
    rewrite (fold_set_color_at serials 0 [] i s Hnd Hi). reflexivity. }
  split; [exact Hc|]. intros metric row_df row_idx t Ht.
  destruct (serial_traces_layout _ _ _ _ _ _ Ht) as [_ [_ [Hcol _]]].
  rewrite Hcol. exact Hc.
Qed.

(** X17 at the second of two devices. *)
Lemma colour_by_position_witness :
  color_of (color_map ["A"; "B"]) "B" = "#EF553B".
Proof.
  exact (proj1 (colour_by_position ["A"; "B"] 1 "B"
                  ltac:(repeat constructor; simpl; intuition discriminate)
                  eq_refl)).
Defined.

(** ** Devices that are not selected *)








